(** * Game of Life with fade trails: a shallow embedding

    Source: [bonus_implementations/circuitPython_slow_but_functional.py],
    class [GameOfLifeMatrix].  The object's attributes become the fields of
    the record [Game]; its methods become computations in a small
    state-and-exception monad over [Game].  Python's [IndexError] on an
    out-of-range subscript is kept, so that bounds safety is a theorem and
    not an assumption. *)

From Stdlib Require Import ZArith Lia.
From Stdlib Require Import Floats.
From stdpp Require Import base decidable list gmap.

#[local] Set Warnings "-inexact-float".

(** ** Configuration (module-level constants, source lines 13-20) *)

Record Config := {
  FADE_LEVELS : Z;
  FADE_DECAY_RATE : Z;
  AUTO_RESET_ON_STABLE : bool;
  STABLE_GENERATIONS : Z;
  HISTORY_SIZE : nat;
}.

(** The values the source file ships with. *)
Definition source_config : Config :=
  {| FADE_LEVELS := 8;
     FADE_DECAY_RATE := 1;
     AUTO_RESET_ON_STABLE := true;
     STABLE_GENERATIONS := 10;
     HISTORY_SIZE := 3 |}.

(** [max_fade = FADE_LEVELS - 1], the level of a fully alive cell. *)
Definition max_fade (cfg : Config) : Z := (FADE_LEVELS cfg - 1)%Z.

(** Configurations the specification recognises (section 6).  The upper
    bound on [FADE_LEVELS] is the one the source relies on silently: the
    fade buffer is a [bytearray], whose cells hold 0..255. *)
Definition valid_config (cfg : Config) : Prop :=
  (2 <= FADE_LEVELS cfg <= 256)%Z /\
  (1 <= FADE_DECAY_RATE cfg)%Z /\
  (1 <= STABLE_GENERATIONS cfg)%Z /\
  1 <= HISTORY_SIZE cfg.

(** ** Object state *)

(** The two bitmaps [b1], [b2] are allocated once; [current_bitmap] and
    [next_bitmap] are references to them, and so are modelled as names. *)
Inductive bitmap_ref := B1 | B2.

(** The two display groups: [g1] shows [b1], [g2] shows [b2]. *)
Inductive group_ref := G1 | G2.

(** What the program does besides updating its own state. *)
Inductive event :=
  | PrintReset (gen : Z)   (* print(f"Resetting due to stable state (gen {gen})") *)
  | Sleep.                 (* time.sleep(0.5) *)

Record Game := {
  width : nat;
  height : nat;
  b1 : list Z;
  b2 : list Z;
  root_group : group_ref;          (* display.root_group *)
  auto_refresh : bool;             (* display.auto_refresh *)
  current_bitmap : bitmap_ref;
  next_bitmap : bitmap_ref;
  fade_buffer : list Z;
  population_history : list Z;
  stable_count : Z;
  generation : Z;
  console : list event;            (* effects so far, oldest first *)
}.

#[global] Instance bitmap_ref_eq_dec : EqDecision bitmap_ref.
Proof. solve_decision. Defined.

#[global] Instance group_ref_eq_dec : EqDecision group_ref.
Proof. solve_decision. Defined.

Definition set_b1 (l : list Z) (g : Game) : Game :=
  {| width := width g; height := height g; b1 := l; b2 := b2 g;
     root_group := root_group g; auto_refresh := auto_refresh g;
     current_bitmap := current_bitmap g; next_bitmap := next_bitmap g;
     fade_buffer := fade_buffer g;
     population_history := population_history g;
     stable_count := stable_count g; generation := generation g;
     console := console g |}.

Definition set_b2 (l : list Z) (g : Game) : Game :=
  {| width := width g; height := height g; b1 := b1 g; b2 := l;
     root_group := root_group g; auto_refresh := auto_refresh g;
     current_bitmap := current_bitmap g; next_bitmap := next_bitmap g;
     fade_buffer := fade_buffer g;
     population_history := population_history g;
     stable_count := stable_count g; generation := generation g;
     console := console g |}.

Definition set_fade_buffer (l : list Z) (g : Game) : Game :=
  {| width := width g; height := height g; b1 := b1 g; b2 := b2 g;
     root_group := root_group g; auto_refresh := auto_refresh g;
     current_bitmap := current_bitmap g; next_bitmap := next_bitmap g;
     fade_buffer := l;
     population_history := population_history g;
     stable_count := stable_count g; generation := generation g;
     console := console g |}.

Definition set_root_group (r : group_ref) (g : Game) : Game :=
  {| width := width g; height := height g; b1 := b1 g; b2 := b2 g;
     root_group := r; auto_refresh := auto_refresh g;
     current_bitmap := current_bitmap g; next_bitmap := next_bitmap g;
     fade_buffer := fade_buffer g;
     population_history := population_history g;
     stable_count := stable_count g; generation := generation g;
     console := console g |}.

Definition set_auto_refresh (b : bool) (g : Game) : Game :=
  {| width := width g; height := height g; b1 := b1 g; b2 := b2 g;
     root_group := root_group g; auto_refresh := b;
     current_bitmap := current_bitmap g; next_bitmap := next_bitmap g;
     fade_buffer := fade_buffer g;
     population_history := population_history g;
     stable_count := stable_count g; generation := generation g;
     console := console g |}.

(** The tuple assignment
    [self.current_bitmap, self.next_bitmap = cur, nxt]. *)
Definition set_bitmap_refs (cur nxt : bitmap_ref) (g : Game) : Game :=
  {| width := width g; height := height g; b1 := b1 g; b2 := b2 g;
     root_group := root_group g; auto_refresh := auto_refresh g;
     current_bitmap := cur; next_bitmap := nxt;
     fade_buffer := fade_buffer g;
     population_history := population_history g;
     stable_count := stable_count g; generation := generation g;
     console := console g |}.

Definition set_population_history (l : list Z) (g : Game) : Game :=
  {| width := width g; height := height g; b1 := b1 g; b2 := b2 g;
     root_group := root_group g; auto_refresh := auto_refresh g;
     current_bitmap := current_bitmap g; next_bitmap := next_bitmap g;
     fade_buffer := fade_buffer g;
     population_history := l;
     stable_count := stable_count g; generation := generation g;
     console := console g |}.

Definition set_stable_count (n : Z) (g : Game) : Game :=
  {| width := width g; height := height g; b1 := b1 g; b2 := b2 g;
     root_group := root_group g; auto_refresh := auto_refresh g;
     current_bitmap := current_bitmap g; next_bitmap := next_bitmap g;
     fade_buffer := fade_buffer g;
     population_history := population_history g;
     stable_count := n; generation := generation g;
     console := console g |}.

Definition set_generation (n : Z) (g : Game) : Game :=
  {| width := width g; height := height g; b1 := b1 g; b2 := b2 g;
     root_group := root_group g; auto_refresh := auto_refresh g;
     current_bitmap := current_bitmap g; next_bitmap := next_bitmap g;
     fade_buffer := fade_buffer g;
     population_history := population_history g;
     stable_count := stable_count g; generation := n;
     console := console g |}.

Definition emit (e : event) (g : Game) : Game :=
  {| width := width g; height := height g; b1 := b1 g; b2 := b2 g;
     root_group := root_group g; auto_refresh := auto_refresh g;
     current_bitmap := current_bitmap g; next_bitmap := next_bitmap g;
     fade_buffer := fade_buffer g;
     population_history := population_history g;
     stable_count := stable_count g; generation := generation g;
     console := console g ++ [e] |}.

(** The bitmap a reference names, and the store through a reference. *)
Definition deref (r : bitmap_ref) (g : Game) : list Z :=
  match r with B1 => b1 g | B2 => b2 g end.

Definition store_bitmap (r : bitmap_ref) (l : list Z) (g : Game) : Game :=
  match r with B1 => set_b1 l g | B2 => set_b2 l g end.

(** ** The monad: state over [Game], with Python exceptions *)

Inductive exn := IndexError | ValueError | OverflowError.

Inductive result (A : Type) :=
  | Ok (a : A)
  | Raise (e : exn).
Arguments Ok {A} a.
Arguments Raise {A} e.

Definition M (A : Type) : Type := Game -> result (A * Game).

Definition ret {A} (a : A) : M A := fun g => Ok (a, g).

Definition bind {A B} (m : M A) (k : A -> M B) : M B :=
  fun g => match m g with
           | Ok (a, g') => k a g'
           | Raise e => Raise e
           end.

Definition raise {A} (e : exn) : M A := fun _ => Raise e.

(** A computation that does not look at the object. *)
Definition lift {A} (r : result A) : M A :=
  fun g => match r with
           | Ok a => Ok (a, g)
           | Raise e => Raise e
           end.

Definition gets {A} (f : Game -> A) : M A := fun g => Ok (f g, g).

Definition modify (f : Game -> Game) : M unit := fun g => Ok (tt, f g).

Notation "'let*' x ':=' m 'in' k" := (bind m (fun x => k))
  (at level 10, x name, m at level 100, k at level 200, only parsing).

Notation "m1 ';;' m2" := (bind m1 (fun _ => m2))
  (at level 100, m2 at level 200, right associativity, only parsing).

(** [for x in xs: a = body(x, a)], where [a] stands for the local variables
    the body reassigns. *)
Fixpoint for_range {A} (xs : list nat) (body : nat -> A -> M A) (a : A) : M A :=
  match xs with
  | [] => ret a
  | x :: xs' => let* a' := body x a in for_range xs' body a'
  end.

(** Subscripts.  A read or a write outside [0, len) raises [IndexError].
    Bitmaps come from the display library; the fade buffer is a bytearray
    and the history a Python list. *)
Definition bitmap_get (r : bitmap_ref) (i : nat) : M Z :=
  fun g => match deref r g !! i with
           | Some v => Ok (v, g)
           | None => Raise IndexError
           end.

Definition bitmap_set (r : bitmap_ref) (i : nat) (v : Z) : M unit :=
  fun g => if decide (i < length (deref r g))
           then Ok (tt, store_bitmap r (<[i:=v]> (deref r g)) g)
           else Raise IndexError.

Definition fade_get (i : nat) : M Z :=
  fun g => match fade_buffer g !! i with
           | Some v => Ok (v, g)
           | None => Raise IndexError
           end.

Definition fade_set (i : nat) (v : Z) : M unit :=
  fun g => if decide (i < length (fade_buffer g))
           then Ok (tt, set_fade_buffer (<[i:=v]> (fade_buffer g)) g)
           else Raise IndexError.

Definition history_get (i : nat) : M Z :=
  fun g => match population_history g !! i with
           | Some v => Ok (v, g)
           | None => Raise IndexError
           end.

Definition history_set (i : nat) (v : Z) : M unit :=
  fun g => if decide (i < length (population_history g))
           then Ok (tt, set_population_history (<[i:=v]> (population_history g)) g)
           else Raise IndexError.

(** ** [__init__] (lines 35-74)

    Bitmaps and the bytearray start zero-filled.  Palette, tile grids and
    groups belong to the display and are not modelled beyond the choice of
    [root_group].  [width_minus_1] and [height_minus_1] are computed here
    once and never reassigned; they are the definitions below.  Dimensions
    are the display's, hence natural numbers; on a zero dimension the
    subtraction is truncated, which no loop body ever observes. *)
Definition init (cfg : Config) (w h : nat) : Game :=
  {| width := w; height := h;
     b1 := replicate (w * h) 0%Z;
     b2 := replicate (w * h) 0%Z;
     root_group := G1;
     auto_refresh := false;
     current_bitmap := B1;
     next_bitmap := B2;
     fade_buffer := replicate (w * h) 0%Z;
     population_history :=
       if AUTO_RESET_ON_STABLE cfg then replicate (HISTORY_SIZE cfg) 0%Z else [];
     stable_count := 0;
     generation := 0;
     console := [] |}.

Definition width_minus_1 (g : Game) : nat := width g - 1.
Definition height_minus_1 (g : Game) : nat := height g - 1.

(** ** [randomize] (lines 76-88)

    [rand i] is what [random.getrandbits(15)] returns at the [i]-th cell of
    this call.  [fraction] is a Python float, that is an IEEE binary64
    number: the product [fraction * 32767] is the rounded binary64 product,
    and [int] truncates it toward zero, raising [ValueError] on a NaN and
    [OverflowError] on an infinity. *)
Definition int_of_float (x : float) : result Z :=
  match Prim2SF x with
  | S754_zero _ => Ok 0%Z
  | S754_finite sign m e =>
      let magnitude :=
        if (0 <=? e)%Z then (Z.pos m * 2 ^ e)%Z else (Z.pos m / 2 ^ (- e))%Z in
      Ok (if sign then (- magnitude)%Z else magnitude)
  | S754_nan => Raise ValueError
  | S754_infinity _ => Raise OverflowError
  end.

Definition random_threshold (fraction : float) : result Z :=
  int_of_float (fraction * 32767)%float.

Definition randomize_cell (cfg : Config) (rand : nat -> Z) (threshold : Z)
    (i : nat) (_ : unit) : M unit :=
  if (rand i <? threshold)%Z then
    let* cur := gets current_bitmap in
    bitmap_set cur i (FADE_LEVELS cfg - 1)%Z ;;
    fade_set i (FADE_LEVELS cfg - 1)%Z
  else
    let* cur := gets current_bitmap in
    bitmap_set cur i 0%Z ;;
    fade_set i 0%Z.

Definition randomize (cfg : Config) (rand : nat -> Z) (fraction : float) : M unit :=
  let* threshold := lift (random_threshold fraction) in
  let* w := gets width in
  let* h := gets height in
  let size := w * h in
  for_range (seq 0 size) (randomize_cell cfg rand threshold) tt.

(** ** [apply_life_rule_with_fade] (lines 90-154) *)

(** One line of the neighbour count:
    [if current[idx] == max_fade: neighbors += 1]. *)
Definition count_if_alive (cfg : Config) (current : bitmap_ref)
    (idx : nat) (neighbors : Z) : M Z :=
  let* v := bitmap_get current idx in
  ret (if (v =? max_fade cfg)%Z then (neighbors + 1)%Z else neighbors).

(** Lines 129-137, in source order. *)
Definition count_neighbors (cfg : Config) (current : bitmap_ref)
    (x_minus_1 x x_plus_1 ym1_offset y_offset yp1_offset : nat) : M Z :=
  let neighbors := 0%Z in
  let* neighbors := count_if_alive cfg current (x_minus_1 + ym1_offset) neighbors in
  let* neighbors := count_if_alive cfg current (x + ym1_offset) neighbors in
  let* neighbors := count_if_alive cfg current (x_plus_1 + ym1_offset) neighbors in
  let* neighbors := count_if_alive cfg current (x_minus_1 + y_offset) neighbors in
  let* neighbors := count_if_alive cfg current (x_plus_1 + y_offset) neighbors in
  let* neighbors := count_if_alive cfg current (x_minus_1 + yp1_offset) neighbors in
  let* neighbors := count_if_alive cfg current (x + yp1_offset) neighbors in
  let* neighbors := count_if_alive cfg current (x_plus_1 + yp1_offset) neighbors in
  ret neighbors.

(** Body of the inner loop (lines 122-154).  The loop-carried local
    [x_minus_1] is the accumulator; the body ends with [x_minus_1 = x]. *)
Definition life_cell (cfg : Config) (current next_bmp : bitmap_ref)
    (width_minus_1 ym1_offset y_offset yp1_offset : nat)
    (x : nat) (x_minus_1 : nat) : M nat :=
  let x_plus_1 := if decide (x = width_minus_1) then 0 else x + 1 in
  let* neighbors :=
    count_neighbors cfg current x_minus_1 x x_plus_1 ym1_offset y_offset yp1_offset in
  let cell_index := x + y_offset in
  let* c := bitmap_get current cell_index in
  let cell_alive := (c =? max_fade cfg)%Z in
  (if (neighbors =? 3)%Z || ((neighbors =? 2)%Z && cell_alive) then
     bitmap_set next_bmp cell_index (max_fade cfg) ;;
     fade_set cell_index (max_fade cfg)
   else
     let* f := fade_get cell_index in
     (if (0 <? f)%Z then
        let* f' := fade_get cell_index in
        fade_set cell_index (Z.max 0 (f' - FADE_DECAY_RATE cfg))
      else ret tt) ;;
     let* f'' := fade_get cell_index in
     bitmap_set next_bmp cell_index f'') ;;
  ret x.

(** Body of the outer loop (lines 104-154). *)
Definition life_row (cfg : Config) (current next_bmp : bitmap_ref)
    (width width_minus_1 height_minus_1 : nat) (y : nat) (_ : unit) : M unit :=
  let y_offset := y * width in
  let ym1_offset :=
    if decide (y = 0) then height_minus_1 * width else (y - 1) * width in
  let yp1_offset :=
    if decide (y = height_minus_1) then 0 else (y + 1) * width in
  let x_minus_1 := width_minus_1 in
  for_range (seq 0 width)
    (life_cell cfg current next_bmp width_minus_1 ym1_offset y_offset yp1_offset)
    x_minus_1 ;;
  ret tt.

Definition apply_life_rule_with_fade (cfg : Config) : M unit :=
  let* width := gets width in
  let* height := gets height in
  let* current := gets current_bitmap in
  let* next_bmp := gets next_bitmap in
  let* width_minus_1 := gets width_minus_1 in
  let* height_minus_1 := gets height_minus_1 in
  for_range (seq 0 height)
    (life_row cfg current next_bmp width width_minus_1 height_minus_1) tt.

(** ** [count_population] (lines 156-166) *)

Definition count_population_cell (max_fade : Z) (i : nat) (count : Z) : M Z :=
  let* cur := gets current_bitmap in
  let* v := bitmap_get cur i in
  ret (if (v =? max_fade)%Z then (count + 1)%Z else count).

Definition count_population (cfg : Config) : M Z :=
  let count := 0%Z in
  let max_fade := (FADE_LEVELS cfg - 1)%Z in
  let* w := gets width in
  let* h := gets height in
  let size := w * h in
  for_range (seq 0 size) (count_population_cell max_fade) count.

(** ** [check_stability] (lines 168-194) *)

(** [range(HISTORY_SIZE - 1, 0, -1)]: the indices HISTORY_SIZE-1 down to 1. *)
Definition shift_indices (n : nat) : list nat := reverse (seq 1 (n - 1)).

Definition shift_history_step (i : nat) (_ : unit) : M unit :=
  let* v := history_get (i - 1) in
  history_set i v.

(** [min] and [max] of a list raise [ValueError] on an empty one. *)
Definition list_min (l : list Z) : M Z :=
  match l with
  | [] => raise ValueError
  | v :: l' => ret (foldl Z.min v l')
  end.

Definition list_max (l : list Z) : M Z :=
  match l with
  | [] => raise ValueError
  | v :: l' => ret (foldl Z.max v l')
  end.

(** The checks after the shift (lines 175-194), first match wins. *)
Definition stability_checks (cfg : Config) : M bool :=
  let* h0 := history_get 0 in
  let* h1 := history_get 1 in
  if (h0 =? h1)%Z then ret true
  else
    let* period2 :=
      (if decide (3 <= HISTORY_SIZE cfg) then
         let* a0 := history_get 0 in
         let* a2 := history_get 2 in
         if (a0 =? a2)%Z then
           let* c0 := history_get 0 in
           let* c1 := history_get 1 in
           ret (negb (c0 =? c1)%Z)
         else ret false
       else ret false) in
    if period2 then ret true
    else
      if decide (3 <= HISTORY_SIZE cfg) then
        let* h := gets population_history in
        let unique_values : gset Z := list_to_set h in
        if decide (size unique_values <= 3) then
          let* min_val := list_min h in
          let* max_val := list_max h in
          if (max_val - min_val <=? 2)%Z then ret true else ret false
        else ret false
      else ret false.

Definition check_stability (cfg : Config) (current_pop : Z) : M bool :=
  for_range (shift_indices (HISTORY_SIZE cfg)) shift_history_step tt ;;
  history_set 0 current_pop ;;
  stability_checks cfg.

(** ** [handle_stable_state] (lines 196-220) *)

Definition handle_stable_state (cfg : Config) (rand : nat -> Z) : M unit :=
  if negb (AUTO_RESET_ON_STABLE cfg) then ret tt
  else
    let* current_pop := count_population cfg in
    let* stable := check_stability cfg current_pop in
    (if stable then
       let* sc := gets stable_count in
       modify (set_stable_count (sc + 1)) ;;
       let* sc' := gets stable_count in
       if (STABLE_GENERATIONS cfg <=? sc')%Z then
         let* gen := gets generation in
         modify (emit (PrintReset gen)) ;;
         randomize cfg rand 0.33%float ;;
         modify (set_population_history (replicate (HISTORY_SIZE cfg) 0%Z)) ;;
         modify (set_stable_count 0) ;;
         modify (set_generation 0) ;;
         modify (emit Sleep)
       else ret tt
     else
       modify (set_stable_count 0)) ;;
    let* gen := gets generation in
    modify (set_generation (gen + 1)).

(** ** [run] (lines 222-239)

    The body of [while True] is one [run_iteration].  The call of
    [handle_stable_state] on line 239 is commented out in the source, so
    the body has none. *)
Definition run_iteration (cfg : Config) : M unit :=
  apply_life_rule_with_fade cfg ;;
  let* cur := gets current_bitmap in
  let* nxt := gets next_bitmap in
  modify (set_bitmap_refs nxt cur) ;;
  let* root := gets root_group in
  if decide (root = G1) then modify (set_root_group G2)
  else modify (set_root_group G1).

(** What [run] does before entering the loop. *)
Definition run_prologue (cfg : Config) (rand : nat -> Z) : M unit :=
  modify (set_auto_refresh true) ;;
  randomize cfg rand 0.33%float.

(** [run], cut after [n] iterations of the loop. *)
Fixpoint run_loop (cfg : Config) (n : nat) : M unit :=
  match n with
  | O => ret tt
  | S n' => run_iteration cfg ;; run_loop cfg n'
  end.

Definition run (cfg : Config) (rand : nat -> Z) (n : nat) : M unit :=
  run_prologue cfg rand ;; run_loop cfg n.

(** ** Pure readings of the loops

    What one pass of [apply_life_rule_with_fade] computes, cell by cell, as
    functions of the buffers it started from.  Their shape follows the
    source; that the loops compute them is [apply_life_rule_with_fade_eq]. *)

(** [l[i]], for an index known to be in range. *)
Definition cell_at (l : list Z) (i : nat) : Z := default 0%Z (l !! i).

(** The wrapped coordinates, branch by branch as in lines 108-126 and the
    loop-carried [x_minus_1]. *)
Definition prev_wrap (n c : nat) : nat := if decide (c = 0) then n - 1 else c - 1.
Definition next_wrap (n c : nat) : nat := if decide (c = n - 1) then 0 else c + 1.

Definition bump (cfg : Config) (cur : list Z) (idx : nat) (neighbors : Z) : Z :=
  if (cell_at cur idx =? max_fade cfg)%Z then (neighbors + 1)%Z else neighbors.

Definition neighbors_at (cfg : Config) (w h : nat) (cur : list Z) (x y : nat) : Z :=
  let xm := prev_wrap w x in
  let xp := next_wrap w x in
  let ym := prev_wrap h y * w in
  let yo := y * w in
  let yp := next_wrap h y * w in
  bump cfg cur (xp + yp) (bump cfg cur (x + yp) (bump cfg cur (xm + yp)
  (bump cfg cur (xp + yo) (bump cfg cur (xm + yo)
  (bump cfg cur (xp + ym) (bump cfg cur (x + ym) (bump cfg cur (xm + ym) 0%Z))))))).

Definition lives (cfg : Config) (w h : nat) (cur : list Z) (x y : nat) : bool :=
  let neighbors := neighbors_at cfg w h cur x y in
  (neighbors =? 3)%Z || ((neighbors =? 2)%Z && (cell_at cur (x + y * w) =? max_fade cfg)%Z).

(** Lines 149-150: the guarded decrement. *)
Definition decay (cfg : Config) (f : Z) : Z :=
  if (0 <? f)%Z then Z.max 0 (f - FADE_DECAY_RATE cfg) else f.

(** The level written to both [next_bmp] and [fade] at cell index [i]. *)
Definition next_level (cfg : Config) (w h : nat) (cur fade : list Z) (i : nat) : Z :=
  if lives cfg w h cur (i mod w) (i / w) then max_fade cfg
  else decay cfg (cell_at fade i).

(** The level [randomize] writes at cell index [i]. *)
Definition random_level (cfg : Config) (rand : nat -> Z) (threshold : Z) (i : nat) : Z :=
  if (rand i <? threshold)%Z then (FADE_LEVELS cfg - 1)%Z else 0%Z.

(** A buffer whose first [k] cells have been rewritten by [F]. *)
Definition mix (F : nat -> Z) (k : nat) (l : list Z) : list Z :=
  (F <$> seq 0 k) ++ drop k l.

Definition with_buffers (r : bitmap_ref) (bl fl : list Z) (g : Game) : Game :=
  set_fade_buffer fl (store_bitmap r bl g).

(** ** The specification's vocabulary *)

(** A cell is alive iff its value is the max fade level. *)
Definition is_alive (cfg : Config) (v : Z) : bool := (v =? FADE_LEVELS cfg - 1)%Z.

(** Toroidal wrap of a coordinate: [c mod n]. *)
Definition wrap (n : nat) (c : Z) : nat := Z.to_nat (c mod Z.of_nat n).

Definition neighbor_offsets : list (Z * Z) :=
  [(-1, -1); (0, -1); (1, -1); (-1, 0); (1, 0); (-1, 1); (0, 1); (1, 1)]%Z.

(** Number of the 8 toroidally wrapped neighbours of [(x, y)] that are
    alive, in a row-major buffer of width [w] and height [h]. *)
Definition toroidal_neighbors (cfg : Config) (w h : nat) (cur : list Z) (x y : nat) : Z :=
  Z.of_nat (length (filter
    (fun d : Z * Z =>
       is_alive cfg (cell_at cur (wrap w (Z.of_nat x + d.1) + wrap h (Z.of_nat y + d.2) * w)) = true)
    neighbor_offsets)).

(** Number of alive cells of a buffer. *)
Definition alive_cells (cfg : Config) (buffer : list Z) : Z :=
  Z.of_nat (length (filter (fun v => v = (FADE_LEVELS cfg - 1)%Z) buffer)).

(** ** The specification's stability predicate (section 4.4)

    Written from the specification's words, on a window as a list with the
    most recent count first. *)

(** Static: history[0] == history[1]. *)
Definition is_static (history : list Z) : Prop :=
  exists v, history !! 0 = Some v /\ history !! 1 = Some v.

(** Period-2 oscillator (window of at least 3):
    history[0] == history[2] and history[0] != history[1]. *)
Definition is_period_2 (history : list Z) : Prop :=
  3 <= length history /\
  exists v w, history !! 0 = Some v /\ history !! 2 = Some v /\
              history !! 1 = Some w /\ v <> w.

Definition is_max (history : list Z) (hi : Z) : Prop :=
  hi ∈ history /\ forall x, x ∈ history -> (x <= hi)%Z.

Definition is_min (history : list Z) (lo : Z) : Prop :=
  lo ∈ history /\ forall x, x ∈ history -> (lo <= x)%Z.

(** Bounded oscillation (window of at least 3): at most 3 distinct values
    and max(window) - min(window) <= 2. *)
Definition is_bounded_oscillation (history : list Z) : Prop :=
  3 <= length history /\
  length (remove_dups history) <= 3 /\
  exists hi lo, is_max history hi /\ is_min history lo /\ (hi - lo <= 2)%Z.

Definition isStable (history : list Z) : Prop :=
  is_static history \/ is_period_2 history \/ is_bounded_oscillation history.

(** ** Well-formed states *)

Definition in_levels (cfg : Config) (v : Z) : Prop :=
  (0 <= v <= FADE_LEVELS cfg - 1)%Z.

(** Shape: three buffers of [width * height] cells, and the two roles name
    different bitmaps. *)
Definition grid_ok (g : Game) : Prop :=
  length (b1 g) = width g * height g /\
  length (b2 g) = width g * height g /\
  length (fade_buffer g) = width g * height g /\
  current_bitmap g <> next_bitmap g.

(** The data-model invariant: every stored level is in range. *)
Definition levels_ok (cfg : Config) (g : Game) : Prop :=
  Forall (in_levels cfg) (b1 g) /\
  Forall (in_levels cfg) (b2 g) /\
  Forall (in_levels cfg) (fade_buffer g).

Definition wf (cfg : Config) (g : Game) : Prop := grid_ok g /\ levels_ok cfg g.

(** The display presents the current bitmap. *)
Definition presents_current (g : Game) : Prop :=
  match root_group g, current_bitmap g with
  | G1, B1 | G2, B2 => True
  | _, _ => False
  end.

(** Outcomes of [random.getrandbits(15)]. *)
Definition valid_rand (rand : nat -> Z) : Prop :=
  forall i, (0 <= rand i < 32768)%Z.

(** ** Closed forms, relations and sample states used by the statements *)

(** Computations that, from [g], return without raising and leave [g]
    as it is. *)
Definition reads_only {A} (g : Game) (m : M A) : Prop :=
  exists a, m g = Ok (a, g).

(** The state after [check_stability] has pushed [current_pop]. *)
Definition pushed (cfg : Config) (current_pop : Z) (g : Game) : Game :=
  set_population_history
    (current_pop :: take (HISTORY_SIZE cfg - 1) (population_history g)) g.

(** The grid after [randomize], given the threshold of line 78. *)
Definition randomized (cfg : Config) (rand : nat -> Z) (threshold : Z) (g : Game) : Game :=
  let rl := random_level cfg rand threshold <$> seq 0 (width g * height g) in
  with_buffers (current_bitmap g) rl rl g.

(** The reset branch (lines 207-216), entered with the incremented
    [stable_count]. *)
Definition reseeded (cfg : Config) (rand : nat -> Z) (g : Game) : Game :=
  emit Sleep
    (set_generation 0
       (set_stable_count 0
          (set_population_history (replicate (HISTORY_SIZE cfg) 0%Z)
             (randomized cfg rand 10813
                (emit (PrintReset (generation g)) g))))).

(** Lines 203-220, given the answer of [check_stability]. *)
Definition after_check (cfg : Config) (rand : nat -> Z) (stable : bool) (g : Game) : Game :=
  let g' :=
    if stable then
      let g1 := set_stable_count (stable_count g + 1) g in
      if (STABLE_GENERATIONS cfg <=? stable_count g1)%Z
      then reseeded cfg rand g1 else g1
    else set_stable_count 0 g in
  set_generation (generation g' + 1) g'.

(** Whether [handle_stable_state], called on [g], finds the population
    stable. *)
Definition reports_stable (cfg : Config) (g : Game) (stable : bool) : Prop :=
  exists current_pop g1,
    count_population cfg g = Ok (current_pop, g) /\
    check_stability cfg current_pop g = Ok (stable, g1).

(** Two states with the same tracking fields and console. *)
Definition same_tracking (g g' : Game) : Prop :=
  population_history g' = population_history g /\
  stable_count g' = stable_count g /\
  generation g' = generation g /\
  console g' = console g.

(** [stable_streak cfg n g0 g]: starting from [g0], [handle_stable_state]
    has been called [n] times and has found the population stable every
    time; between two calls the grid may have changed in any way. *)
Inductive stable_streak (cfg : Config) : nat -> Game -> Game -> Prop :=
  | streak_nil g : stable_streak cfg 0 g g
  | streak_step n g0 g g_in rand g' :
      stable_streak cfg n g0 g ->
      same_tracking g g_in ->
      grid_ok g_in ->
      reports_stable cfg g_in true ->
      handle_stable_state cfg rand g_in = Ok (tt, g') ->
      stable_streak cfg (S n) g0 g'.

(** [n] calls of [handle_stable_state] in a row. *)
Fixpoint handle_stable_state_times (cfg : Config) (rand : nat -> Z) (n : nat) : M unit :=
  match n with
  | O => ret tt
  | S n' => handle_stable_state_times cfg rand n' ;; handle_stable_state cfg rand
  end.

(** A 3x3 grid in which only cell (0,0) is alive. *)
Definition corner_grid : Game :=
  set_b1 [7; 0; 0; 0; 0; 0; 0; 0; 0]%Z (init source_config 3 3).

(** The same grid as the program has it after [randomize]: the fade buffer
    agrees with the current bitmap. *)
Definition lonely_grid : Game :=
  set_fade_buffer [7; 0; 0; 0; 0; 0; 0; 0; 0]%Z corner_grid.

(** A state that shares with [lonely_grid] only the dimensions, the
    contents of the current bitmap and the fade buffer: the roles of [b1]
    and [b2] are exchanged, the next bitmap holds stale levels, and the
    tracking fields differ. *)
Definition lonely_grid_other : Game :=
  {| width := 3; height := 3;
     b1 := [3; 1; 4; 1; 5; 2; 6; 5; 3]%Z;
     b2 := [7; 0; 0; 0; 0; 0; 0; 0; 0]%Z;
     root_group := G2; auto_refresh := true;
     current_bitmap := B2; next_bitmap := B1;
     fade_buffer := [7; 0; 0; 0; 0; 0; 0; 0; 0]%Z;
     population_history := [4; 2; 9]%Z;
     stable_count := 3; generation := 41;
     console := [PrintReset 17; Sleep] |}.

(** The state in which nine stable generations have been counted. *)
Definition ninth_stable : Game :=
  set_generation 9 (set_stable_count 9 (init source_config 2 2)).

(** The source configuration with a history window of one entry. *)
Definition short_history_config : Config :=
  {| FADE_LEVELS := 8;
     FADE_DECAY_RATE := 1;
     AUTO_RESET_ON_STABLE := true;
     STABLE_GENERATIONS := 10;
     HISTORY_SIZE := 1 |}.

(** ** Vocabulary of the further properties *)

(** No cell of a buffer is alive. *)
Definition no_alive (cfg : Config) (buffer : list Z) : Prop :=
  Forall (fun v => v <> max_fade cfg) buffer.

(** Which cells of a buffer are alive. *)
Definition alive_pattern (cfg : Config) (buffer : list Z) : list bool :=
  is_alive cfg <$> buffer.

(** ** The palette (lines 22-32 and 45-48)

    [displayio.Palette(n)] is an array of [n] colours, black at first. *)
Definition FADE_COLORS : list Z :=
  [0x000000; 0x000004; 0x00000A; 0x00000F;
   0x000400; 0x000A00; 0x000F00; 0xFF0000]%Z.

(** [self.palette[i] = FADE_COLORS[i]]: the read comes first. *)
Definition palette_step (i : nat) (palette : list Z) : result (list Z) :=
  match FADE_COLORS !! i with
  | None => Raise IndexError
  | Some colour =>
      if decide (i < length palette) then Ok (<[i:=colour]> palette)
      else Raise IndexError
  end.

Fixpoint palette_loop (xs : list nat) (palette : list Z) : result (list Z) :=
  match xs with
  | [] => Ok palette
  | i :: xs' =>
      match palette_step i palette with
      | Ok palette' => palette_loop xs' palette'
      | Raise e => Raise e
      end
  end.

Definition make_palette (cfg : Config) : result (list Z) :=
  let n := Z.to_nat (FADE_LEVELS cfg) in
  palette_loop (seq 0 n) (replicate n 0%Z).

(** The freshly constructed 2x2 object after [n] stable generations have
    been counted. *)
Definition dead_after (n : Z) : Game :=
  set_generation n (set_stable_count n (init source_config 2 2)).

(** The same object after the reseed of the tenth stable generation, when
    no draw falls below the threshold. *)
Definition dead_reseeded : Game :=
  emit Sleep (emit (PrintReset 9) (set_generation 1 (init source_config 2 2))).

(** * Proofs *)

(** ** The monad *)

Lemma bind_ok {A B} (m : M A) (k : A -> M B) g a g' :
  m g = Ok (a, g') -> bind m k g = k a g'.
Proof. unfold bind. now intros ->. Qed.

Lemma bind_raise {A B} (m : M A) (k : A -> M B) g e :
  m g = Raise e -> bind m k g = Raise e.
Proof. unfold bind. now intros ->. Qed.

(** ** Buffers *)

Lemma cell_at_lookup (l : list Z) i : i < length l -> l !! i = Some (cell_at l i).
Proof.
  intros H. unfold cell_at.
  destruct (lookup_lt_is_Some_2 l i H) as [v ->]. done.
Qed.

Lemma mix_0 F (l : list Z) : mix F 0 l = l.
Proof. done. Qed.

Lemma mix_all F n (l : list Z) : length l = n -> mix F n l = F <$> seq 0 n.
Proof. intros <-. unfold mix. now rewrite drop_all, app_nil_r. Qed.

Lemma mix_length F k (l : list Z) : k <= length l -> length (mix F k l) = length l.
Proof.
  intros H. unfold mix.
  rewrite length_app, length_fmap, length_seq, length_drop. lia.
Qed.

Lemma mix_lookup_ge F k (l : list Z) i : k <= i -> k <= length l -> mix F k l !! i = l !! i.
Proof.
  intros Hi Hk. unfold mix.
  rewrite lookup_app_r; rewrite length_fmap, length_seq; [|done].
  rewrite lookup_drop. f_equal. lia.
Qed.

Lemma mix_S F k (l : list Z) : k < length l -> <[k := F k]> (mix F k l) = mix F (S k) l.
Proof.
  intros H. unfold mix.
  destruct (lookup_lt_is_Some_2 l k H) as [v Hv].
  rewrite (drop_S l v k Hv), seq_S, fmap_app, <- app_assoc.
  rewrite insert_app_r_alt; rewrite length_fmap, length_seq; [|done].
  now rewrite Nat.sub_diag.
Qed.

Lemma deref_with_buffers_other r r' bl fl g :
  r' <> r -> deref r' (with_buffers r bl fl g) = deref r' g.
Proof. destruct r, r'; done. Qed.

Lemma deref_with_buffers r bl fl g : deref r (with_buffers r bl fl g) = bl.
Proof. now destruct r. Qed.

Lemma deref_set_fade_buffer r l g : deref r (set_fade_buffer l g) = deref r g.
Proof. now destruct r. Qed.

Lemma bitmap_get_ok r i g :
  i < length (deref r g) -> bitmap_get r i g = Ok (cell_at (deref r g) i, g).
Proof. intros H. unfold bitmap_get. now rewrite (cell_at_lookup _ _ H). Qed.

Lemma bitmap_set_ok r i v g :
  i < length (deref r g) ->
  bitmap_set r i v g = Ok (tt, store_bitmap r (<[i:=v]> (deref r g)) g).
Proof. intros H. unfold bitmap_set. now rewrite decide_True. Qed.

Lemma fade_get_ok i g :
  i < length (fade_buffer g) -> fade_get i g = Ok (cell_at (fade_buffer g) i, g).
Proof. intros H. unfold fade_get. now rewrite (cell_at_lookup _ _ H). Qed.

Lemma fade_set_ok i v g :
  i < length (fade_buffer g) ->
  fade_set i v g = Ok (tt, set_fade_buffer (<[i:=v]> (fade_buffer g)) g).
Proof. intros H. unfold fade_set. now rewrite decide_True. Qed.

(** Writing level [v] at cell [k] of a bitmap and of the fade buffer. *)
Lemma write_both_ok r k v bl fl g :
  k < length bl -> k < length fl ->
  (bitmap_set r k v ;; fade_set k v) (with_buffers r bl fl g)
  = Ok (tt, with_buffers r (<[k:=v]> bl) (<[k:=v]> fl) g).
Proof.
  intros Hb Hf.
  erewrite bind_ok; [|apply bitmap_set_ok; now rewrite deref_with_buffers].
  rewrite fade_set_ok by now destruct r.
  rewrite deref_with_buffers. now destruct r.
Qed.

(** ** One pass of the life rule *)

Lemma cell_index_bound w h x y : x < w -> y < h -> x + y * w < w * h.
Proof. nia. Qed.

Lemma prev_wrap_lt n c : c < n -> prev_wrap n c < n.
Proof. unfold prev_wrap. case_decide; lia. Qed.

Lemma next_wrap_lt n c : c < n -> next_wrap n c < n.
Proof. unfold next_wrap. case_decide; lia. Qed.

Lemma cell_index_mod w x y : x < w -> (x + y * w) mod w = x.
Proof. intros H. rewrite Nat.Div0.mod_add. now apply Nat.mod_small. Qed.

Lemma cell_index_div w x y : x < w -> (x + y * w) / w = y.
Proof.
  intros H. rewrite Nat.div_add by lia. rewrite Nat.div_small by done. done.
Qed.

Lemma with_buffers_same g :
  with_buffers (next_bitmap g) (deref (next_bitmap g) g) (fade_buffer g) g = g.
Proof. destruct g as [? ? ? ? ? ? ? [] ? ? ? ? ?]; done. Qed.

Section LifePass.
Variables (cfg : Config) (g0 : Game) (cur nxt : bitmap_ref) (w h : nat).
Hypothesis Hne : cur <> nxt.
Hypothesis Hcur : length (deref cur g0) = w * h.
Hypothesis Hnxt : length (deref nxt g0) = w * h.
Hypothesis Hfade : length (fade_buffer g0) = w * h.

Local Abbreviation F := (next_level cfg w h (deref cur g0) (fade_buffer g0)).
Local Abbreviation state_at k :=
  (with_buffers nxt (mix F k (deref nxt g0)) (mix F k (fade_buffer g0)) g0).

Lemma count_if_alive_ok k idx n :
  idx < w * h ->
  count_if_alive cfg cur idx n (state_at k)
  = Ok (bump cfg (deref cur g0) idx n, state_at k).
Proof.
  intros Hi. unfold count_if_alive.
  erewrite bind_ok; [|apply bitmap_get_ok].
  - now rewrite deref_with_buffers_other.
  - rewrite deref_with_buffers_other by done. lia.
Qed.

Lemma count_neighbors_ok k x y :
  x < w -> y < h ->
  count_neighbors cfg cur (prev_wrap w x) x (next_wrap w x)
    (prev_wrap h y * w) (y * w) (next_wrap h y * w) (state_at k)
  = Ok (neighbors_at cfg w h (deref cur g0) x y, state_at k).
Proof.
  intros Hx Hy. unfold count_neighbors.
  pose proof (prev_wrap_lt w x Hx). pose proof (next_wrap_lt w x Hx).
  pose proof (prev_wrap_lt h y Hy). pose proof (next_wrap_lt h y Hy).
  repeat (erewrite bind_ok; [|apply count_if_alive_ok; apply cell_index_bound; done]).
  done.
Qed.

Lemma write_fading_ok k :
  k < w * h ->
  (let* f := fade_get k in
   (if (0 <? f)%Z then
      let* f' := fade_get k in
      fade_set k (Z.max 0 (f' - FADE_DECAY_RATE cfg))
    else ret tt) ;;
   let* f'' := fade_get k in
   bitmap_set nxt k f'') (state_at k)
  = Ok (tt, with_buffers nxt
              (<[k := decay cfg (cell_at (fade_buffer g0) k)]> (mix F k (deref nxt g0)))
              (<[k := decay cfg (cell_at (fade_buffer g0) k)]> (mix F k (fade_buffer g0))) g0).
Proof.
  intros Hk.
  assert (Hlen : length (mix F k (fade_buffer g0)) = w * h) by (rewrite mix_length; lia).
  assert (Hlen' : length (mix F k (deref nxt g0)) = w * h) by (rewrite mix_length; lia).
  assert (Hfk : cell_at (mix F k (fade_buffer g0)) k = cell_at (fade_buffer g0) k).
  { unfold cell_at. rewrite mix_lookup_ge; [done | done | lia]. }
  assert (Hfb : fade_buffer (state_at k) = mix F k (fade_buffer g0)) by now destruct nxt.
  erewrite bind_ok; [|apply fade_get_ok; rewrite Hfb; lia].
  rewrite Hfb, Hfk. unfold decay.
  destruct (0 <? cell_at (fade_buffer g0) k)%Z.
  - erewrite bind_ok.
    2:{ erewrite bind_ok; [|apply fade_get_ok; rewrite Hfb; lia].
        rewrite Hfb, Hfk. apply fade_set_ok. rewrite Hfb. lia. }
    erewrite bind_ok.
    2:{ apply fade_get_ok. destruct nxt; simpl; rewrite length_insert; lia. }
    rewrite bitmap_set_ok.
    2:{ rewrite deref_set_fade_buffer, deref_with_buffers. lia. }
    f_equal. f_equal. rewrite Hfb.
    set (v := Z.max 0 _).
    assert (Hv : cell_at (<[k:=v]> (mix F k (fade_buffer g0))) k = v).
    { unfold cell_at. rewrite list_lookup_insert_eq; [done | lia]. }
    destruct nxt; simpl; rewrite Hv; done.
  - erewrite bind_ok; [|reflexivity].
    erewrite bind_ok; [|apply fade_get_ok; rewrite Hfb; lia].
    rewrite Hfb, Hfk.
    rewrite bitmap_set_ok.
    2:{ rewrite deref_with_buffers; lia. }
    f_equal. f_equal. rewrite deref_with_buffers.
    set (v := cell_at (fade_buffer g0) k).
    assert (Hid : <[k:=v]> (mix F k (fade_buffer g0)) = mix F k (fade_buffer g0)).
    { apply list_insert_id. rewrite mix_lookup_ge; [|done|lia].
      apply cell_at_lookup. lia. }
    rewrite Hid. now destruct nxt.
Qed.

(** The inner loop body at [(x, y)] moves the pass one cell forward. *)
Lemma life_cell_ok x y :
  x < w -> y < h ->
  life_cell cfg cur nxt (w - 1) (prev_wrap h y * w) (y * w) (next_wrap h y * w)
    x (prev_wrap w x) (state_at (x + y * w))
  = Ok (x, state_at (S (x + y * w))).
Proof.
  intros Hx Hy. unfold life_cell.
  pose proof (cell_index_bound w h x y Hx Hy) as Hk.
  change (if decide (x = w - 1) then 0 else x + 1) with (next_wrap w x).
  erewrite bind_ok; [|now apply count_neighbors_ok].
  erewrite bind_ok.
  2:{ apply bitmap_get_ok. rewrite deref_with_buffers_other by done. lia. }
  rewrite deref_with_buffers_other by done.
  change ((neighbors_at cfg w h (deref cur g0) x y =? 3)%Z
          || (neighbors_at cfg w h (deref cur g0) x y =? 2)%Z
             && (cell_at (deref cur g0) (x + y * w) =? max_fade cfg)%Z)
    with (lives cfg w h (deref cur g0) x y).
  assert (HF : F (x + y * w)
               = if lives cfg w h (deref cur g0) x y then max_fade cfg
                 else decay cfg (cell_at (fade_buffer g0) (x + y * w))).
  { unfold next_level. now rewrite cell_index_mod, cell_index_div. }
  rewrite <- !mix_S by lia. rewrite HF.
  destruct (lives cfg w h (deref cur g0) x y).
  - erewrite bind_ok; [|apply write_both_ok; rewrite mix_length; lia]. done.
  - erewrite bind_ok; [|now apply write_fading_ok]. done.
Qed.

Lemma life_cells_ok y :
  y < h ->
  forall n x, x + n = w ->
  exists a,
    for_range (seq x n)
      (life_cell cfg cur nxt (w - 1) (prev_wrap h y * w) (y * w) (next_wrap h y * w))
      (prev_wrap w x) (state_at (x + y * w))
    = Ok (a, state_at (w + y * w)).
Proof.
  intros Hy n. induction n as [|n IH]; intros x Hx; simpl.
  - replace x with w by lia. now eexists.
  - erewrite bind_ok; [|apply life_cell_ok; lia].
    assert (E : prev_wrap w (S x) = x)
      by (unfold prev_wrap; rewrite decide_False by done; lia).
    specialize (IH (S x) ltac:(lia)). now rewrite E in IH.
Qed.

(** The outer loop body at row [y] moves the pass one row forward. *)
Lemma life_row_ok y :
  y < h ->
  life_row cfg cur nxt w (w - 1) (h - 1) y tt (state_at (y * w))
  = Ok (tt, state_at (S y * w)).
Proof.
  intros Hy. unfold life_row.
  replace (if decide (y = 0) then (h - 1) * w else (y - 1) * w)
    with (prev_wrap h y * w) by (unfold prev_wrap; now case_decide).
  replace (if decide (y = h - 1) then 0 else (y + 1) * w)
    with (next_wrap h y * w) by (unfold next_wrap; now case_decide).
  destruct (life_cells_ok y Hy w 0 eq_refl) as [a Ha].
  erewrite bind_ok; [|exact Ha]. done.
Qed.

Lemma life_rows_ok :
  forall n y, y + n = h ->
  for_range (seq y n) (life_row cfg cur nxt w (w - 1) (h - 1)) tt (state_at (y * w))
  = Ok (tt, state_at (h * w)).
Proof.
  induction n as [|n IH]; intros y Hy; simpl.
  - now replace y with h by lia.
  - erewrite bind_ok; [|apply life_row_ok; lia].
    apply (IH (S y)). lia.
Qed.

End LifePass.

(** The whole pass, in closed form: [next_bmp] and [fade] both end up
    holding [next_level] at every cell, and nothing else changes. *)
Lemma apply_life_rule_with_fade_eq cfg g :
  grid_ok g ->
  apply_life_rule_with_fade cfg g
  = Ok (tt, let nl := next_level cfg (width g) (height g)
                        (deref (current_bitmap g) g) (fade_buffer g)
                      <$> seq 0 (width g * height g) in
            with_buffers (next_bitmap g) nl nl g).
Proof.
  intros (H1 & H2 & Hf & Hne).
  assert (Hcur : length (deref (current_bitmap g) g) = width g * height g)
    by now destruct (current_bitmap g).
  assert (Hnxt : length (deref (next_bitmap g) g) = width g * height g)
    by now destruct (next_bitmap g).
  unfold apply_life_rule_with_fade, gets, bind. simpl.
  pose proof (life_rows_ok cfg g _ _ _ _ Hne Hcur Hnxt Hf (height g) 0 eq_refl) as E.
  simpl in E. rewrite !mix_0, with_buffers_same in E.
  unfold width_minus_1, height_minus_1. rewrite E.
  rewrite (Nat.mul_comm (height g)).
  now rewrite !mix_all.
Qed.

(** ** The branch-wise wrap is the toroidal one *)

Lemma wrap_prev n c : c < n -> wrap n (Z.of_nat c + -1) = prev_wrap n c.
Proof.
  intros H. unfold wrap, prev_wrap. case_decide as Hc.
  - subst c. change (Z.of_nat 0 + -1)%Z with (-1)%Z.
    rewrite <- (Z.mod_unique (-1) (Z.of_nat n) (-1) (Z.of_nat n - 1)); lia.
  - rewrite Z.mod_small by lia. lia.
Qed.

Lemma wrap_same n c : c < n -> wrap n (Z.of_nat c + 0) = c.
Proof.
  intros H. unfold wrap. rewrite Z.add_0_r, Z.mod_small by lia. lia.
Qed.

Lemma wrap_next n c : c < n -> wrap n (Z.of_nat c + 1) = next_wrap n c.
Proof.
  intros H. unfold wrap, next_wrap. case_decide as Hc.
  - rewrite <- (Z.mod_unique (Z.of_nat c + 1) (Z.of_nat n) 1 0); lia.
  - rewrite Z.mod_small by lia. lia.
Qed.

Lemma bump_b2z cfg cur idx n :
  bump cfg cur idx n = (n + Z.b2z (is_alive cfg (cell_at cur idx)))%Z.
Proof.
  unfold bump, is_alive, max_fade.
  destruct (cell_at cur idx =? FADE_LEVELS cfg - 1)%Z; simpl; lia.
Qed.

Lemma length_filter_alive_cons cfg (pos : Z * Z -> nat) cur d ds :
  Z.of_nat (length (filter (fun d => is_alive cfg (cell_at cur (pos d)) = true) (d :: ds)))
  = (Z.b2z (is_alive cfg (cell_at cur (pos d)))
     + Z.of_nat (length (filter (fun d => is_alive cfg (cell_at cur (pos d)) = true) ds)))%Z.
Proof.
  rewrite filter_cons. destruct (is_alive cfg (cell_at cur (pos d))).
  - rewrite decide_True by done. cbn [length Z.b2z]. lia.
  - rewrite decide_False by done. cbn [Z.b2z]. lia.
Qed.

(** The count the loop makes is the count of the specification. *)
Lemma neighbors_at_toroidal cfg w h cur x y :
  x < w -> y < h ->
  neighbors_at cfg w h cur x y = toroidal_neighbors cfg w h cur x y.
Proof.
  intros Hx Hy. unfold toroidal_neighbors, neighbor_offsets.
  rewrite !(length_filter_alive_cons cfg
    (fun d => wrap w (Z.of_nat x + d.1) + wrap h (Z.of_nat y + d.2) * w)).
  rewrite filter_nil. cbn [fst snd length].
  rewrite !wrap_prev, !wrap_same, !wrap_next by done.
  unfold neighbors_at. rewrite !bump_b2z. lia.
Qed.

(** A cell that is not reborn never ends at the max level. *)
Lemma decay_below_max cfg f :
  valid_config cfg -> in_levels cfg f -> decay cfg f <> max_fade cfg.
Proof.
  intros (HF & HR & _) Hf. unfold decay, max_fade, in_levels in *.
  destruct (0 <? f)%Z eqn:E; lia.
Qed.

Lemma decay_max cfg f :
  valid_config cfg -> (0 <= f)%Z -> decay cfg f = Z.max 0 (f - FADE_DECAY_RATE cfg).
Proof.
  intros (HF & HR & _) Hf. unfold decay.
  destruct (0 <? f)%Z eqn:E; lia.
Qed.

Lemma decay_in_levels cfg f :
  valid_config cfg -> in_levels cfg f -> in_levels cfg (decay cfg f).
Proof.
  intros (HF & HR & _) Hf. unfold decay, in_levels in *.
  destruct (0 <? f)%Z eqn:E; lia.
Qed.

Lemma lives_iff cfg w h cur x y :
  x < w -> y < h ->
  lives cfg w h cur x y = true <->
  let n := toroidal_neighbors cfg w h cur x y in
  n = 3%Z \/ (n = 2%Z /\ cell_at cur (x + y * w) = max_fade cfg).
Proof.
  intros Hx Hy. unfold lives. rewrite neighbors_at_toroidal by done.
  cbn zeta. rewrite orb_true_iff, andb_true_iff, !Z.eqb_eq. done.
Qed.

Lemma cell_at_in_levels cfg (l : list Z) i :
  Forall (in_levels cfg) l -> i < length l -> in_levels cfg (cell_at l i).
Proof.
  intros Hl Hi. rewrite Forall_lookup in Hl.
  apply (Hl i). now apply cell_at_lookup.
Qed.

Lemma lookup_fmap_seq (F : nat -> Z) n i : i < n -> (F <$> seq 0 n) !! i = Some (F i).
Proof.
  intros H. rewrite list_lookup_fmap, lookup_seq_lt by done. done.
Qed.

Lemma next_level_in_levels cfg w h cur fade i :
  valid_config cfg -> Forall (in_levels cfg) fade -> i < length fade ->
  in_levels cfg (next_level cfg w h cur fade i).
Proof.
  intros Hc Hf Hi. unfold next_level.
  destruct (lives _ _ _ _ _ _).
  - destruct Hc as (HF & _). unfold in_levels, max_fade. lia.
  - apply decay_in_levels; [done|]. now apply cell_at_in_levels.
Qed.

Lemma Forall_fmap_seq (P : Z -> Prop) (F : nat -> Z) n :
  (forall i, i < n -> P (F i)) -> Forall P (F <$> seq 0 n).
Proof.
  intros H. apply Forall_lookup. intros i v Hv.
  assert (Hi : i < n).
  { apply lookup_lt_Some in Hv. now rewrite length_fmap, length_seq in Hv. }
  rewrite lookup_fmap_seq in Hv by done. injection Hv as <-. now apply H.
Qed.

(** ** [randomize] in closed form *)

Lemma current_bitmap_with_buffers r bl fl g :
  current_bitmap (with_buffers r bl fl g) = current_bitmap g.
Proof. now destruct r. Qed.

Lemma next_bitmap_with_buffers r bl fl g :
  next_bitmap (with_buffers r bl fl g) = next_bitmap g.
Proof. now destruct r. Qed.

Lemma fade_buffer_with_buffers r bl fl g :
  fade_buffer (with_buffers r bl fl g) = fl.
Proof. now destruct r. Qed.

Lemma randomize_cell_ok cfg rand threshold k bl fl g0 :
  k < length bl -> k < length fl ->
  randomize_cell cfg rand threshold k tt (with_buffers (current_bitmap g0) bl fl g0)
  = Ok (tt, with_buffers (current_bitmap g0)
              (<[k := random_level cfg rand threshold k]> bl)
              (<[k := random_level cfg rand threshold k]> fl) g0).
Proof.
  intros Hb Hf. unfold randomize_cell, random_level.
  destruct (rand k <? threshold)%Z.
  - erewrite bind_ok; [|reflexivity].
    rewrite current_bitmap_with_buffers. now apply write_both_ok.
  - erewrite bind_ok; [|reflexivity].
    rewrite current_bitmap_with_buffers. now apply write_both_ok.
Qed.

Lemma randomize_cells_ok cfg rand threshold g0 n :
  length (deref (current_bitmap g0) g0) = n ->
  length (fade_buffer g0) = n ->
  forall m k, k + m = n ->
  for_range (seq k m) (randomize_cell cfg rand threshold) tt
    (with_buffers (current_bitmap g0)
       (mix (random_level cfg rand threshold) k (deref (current_bitmap g0) g0))
       (mix (random_level cfg rand threshold) k (fade_buffer g0)) g0)
  = Ok (tt, with_buffers (current_bitmap g0)
              (mix (random_level cfg rand threshold) n (deref (current_bitmap g0) g0))
              (mix (random_level cfg rand threshold) n (fade_buffer g0)) g0).
Proof.
  intros Hc Hf m. induction m as [|m IH]; intros k Hk; simpl.
  - now replace k with n by lia.
  - erewrite bind_ok; [|apply randomize_cell_ok; rewrite mix_length; lia].
    rewrite !mix_S by lia. apply (IH (S k)). lia.
Qed.

(** The thresholds of the fractions the source and the specification use:
    exact at 0 and 1, and int(0.33 * 32767) = 10813. *)
Lemma random_threshold_0 : random_threshold 0%float = Ok 0%Z.
Proof. reflexivity. Qed.

Lemma random_threshold_1 : random_threshold 1%float = Ok 32767%Z.
Proof. reflexivity. Qed.

Lemma random_threshold_default : random_threshold 0.33%float = Ok 10813%Z.
Proof. reflexivity. Qed.

(** When line 78 raises, nothing has been written. *)
Lemma randomize_raise cfg rand fraction e g :
  random_threshold fraction = Raise e ->
  randomize cfg rand fraction g = Raise e.
Proof. intros H. unfold randomize, lift, bind. now rewrite H. Qed.

Lemma randomize_eq cfg rand fraction threshold g :
  random_threshold fraction = Ok threshold ->
  grid_ok g ->
  randomize cfg rand fraction g
  = Ok (tt, let rl := random_level cfg rand threshold
                      <$> seq 0 (width g * height g) in
            with_buffers (current_bitmap g) rl rl g).
Proof.
  intros Ht (H1 & H2 & Hf & Hne).
  assert (Hcur : length (deref (current_bitmap g) g) = width g * height g)
    by now destruct (current_bitmap g).
  unfold randomize, lift, gets, bind. rewrite Ht. simpl.
  pose proof (randomize_cells_ok cfg rand threshold g _ Hcur Hf
                (width g * height g) 0 eq_refl) as E.
  rewrite !mix_0 in E. rewrite !mix_all in E by done.
  rewrite <- E. f_equal.
  destruct g as [? ? ? ? ? ? [] ? ? ? ? ? ?]; done.
Qed.

(** ** [count_population] in closed form *)

Lemma alive_cells_cons cfg v l :
  alive_cells cfg (v :: l)
  = ((if (v =? FADE_LEVELS cfg - 1)%Z then 1 else 0) + alive_cells cfg l)%Z.
Proof.
  unfold alive_cells. rewrite filter_cons.
  destruct (Z.eqb_spec v (FADE_LEVELS cfg - 1)).
  - rewrite decide_True by done. cbn [length]. lia.
  - rewrite decide_False by done. lia.
Qed.

Lemma count_population_cells_ok cfg g :
  forall m k c, k + m = length (deref (current_bitmap g) g) ->
  for_range (seq k m) (count_population_cell (FADE_LEVELS cfg - 1)) c g
  = Ok ((c + alive_cells cfg (drop k (deref (current_bitmap g) g)))%Z, g).
Proof.
  induction m as [|m IH]; intros k c Hk; simpl.
  - rewrite drop_ge by lia. unfold alive_cells. simpl. now rewrite Z.add_0_r.
  - unfold count_population_cell at 1. unfold gets, bind at 2.
    assert (Hlt : k < length (deref (current_bitmap g) g)) by lia.
    unfold bind at 1. unfold bind at 1. rewrite (bitmap_get_ok _ _ _ Hlt).
    unfold ret. rewrite (IH (S k)) by lia.
    rewrite (drop_S _ _ k (cell_at_lookup _ _ Hlt)), alive_cells_cons.
    f_equal. f_equal.
    destruct (cell_at (deref (current_bitmap g) g) k =? FADE_LEVELS cfg - 1)%Z; lia.
Qed.

Lemma count_population_eq cfg g :
  grid_ok g ->
  count_population cfg g = Ok (alive_cells cfg (deref (current_bitmap g) g), g).
Proof.
  intros (H1 & H2 & Hf & Hne).
  assert (Hcur : length (deref (current_bitmap g) g) = width g * height g)
    by now destruct (current_bitmap g).
  unfold count_population, gets, bind. simpl.
  rewrite count_population_cells_ok by lia. now rewrite drop_0.
Qed.

(** ** The history window *)

Lemma history_get_ok i g :
  i < length (population_history g) ->
  history_get i g = Ok (cell_at (population_history g) i, g).
Proof. intros H. unfold history_get. now rewrite (cell_at_lookup _ _ H). Qed.

Lemma history_get_raise i g :
  length (population_history g) <= i -> history_get i g = Raise IndexError.
Proof. intros H. unfold history_get. now rewrite lookup_ge_None_2. Qed.

Lemma history_set_ok i v g :
  i < length (population_history g) ->
  history_set i v g
  = Ok (tt, set_population_history (<[i:=v]> (population_history g)) g).
Proof. intros H. unfold history_set. now rewrite decide_True. Qed.

(** The shift loop, run from index [m] down to 1 on a window whose cells
    above [m] have already moved. *)
Lemma shift_loop_ok g (h : list Z) :
  forall m, m < length h ->
  for_range (reverse (seq 1 m)) shift_history_step tt
    (set_population_history (take (S m) h ++ take (length h - S m) (drop m h)) g)
  = Ok (tt, set_population_history (take 1 h ++ take (length h - 1) h) g).
Proof.
  induction m as [|m IH]; intros Hm.
  - simpl for_range. now rewrite drop_0.
  - rewrite seq_S, reverse_snoc. simpl for_range.
    assert (Hm' : m < length h) by lia.
    pose proof (cell_at_lookup h m Hm') as Ha.
    destruct (lookup_lt_is_Some_2 h (S m) Hm) as [b Hb].
    erewrite bind_ok; [apply (IH Hm')|].
    unfold shift_history_step.
    replace (S m - 1) with m by lia.
    erewrite bind_ok.
    2:{ unfold history_get. cbn [population_history set_population_history].
        rewrite lookup_app_l by (rewrite length_take; lia).
        rewrite lookup_take_lt by lia. now rewrite Ha. }
    rewrite history_set_ok.
    2:{ cbn [population_history set_population_history].
        rewrite length_app, !length_take, length_drop. lia. }
    cbn [population_history set_population_history]. f_equal. f_equal.
    change (set_population_history ?l (set_population_history ?l' g))
      with (set_population_history l g).
    f_equal.
    rewrite (take_S_r h (S m) b Hb), <- app_assoc.
    rewrite insert_app_r_alt by (rewrite length_take; lia).
    replace (S m - length (take (S m) h)) with 0 by (rewrite length_take; lia).
    f_equal. rewrite (drop_S h _ m Ha).
    replace (length h - S m) with (S (length h - S (S m))) by lia.
    done.
Qed.

(** [check_stability] pushes the count at the front of the window, drops
    the oldest entry, and then runs the checks. *)
Lemma check_stability_eq cfg current_pop g :
  length (population_history g) = HISTORY_SIZE cfg ->
  1 <= HISTORY_SIZE cfg ->
  check_stability cfg current_pop g
  = stability_checks cfg
      (set_population_history
         (current_pop :: take (HISTORY_SIZE cfg - 1) (population_history g)) g).
Proof.
  intros Hlen Hn. unfold check_stability, shift_indices.
  set (h := population_history g) in *.
  pose proof (shift_loop_ok g h (length h - 1) ltac:(lia)) as E.
  replace (S (length h - 1)) with (length h) in E by lia.
  rewrite Nat.sub_diag, firstn_all, firstn_O, app_nil_r in E.
  replace (set_population_history h g) with g in E by (subst h; now destruct g).
  rewrite Hlen in E.
  erewrite bind_ok; [|exact E].
  erewrite bind_ok.
  2:{ apply history_set_ok. cbn [population_history set_population_history].
      rewrite length_app, !length_take. lia. }
  cbn [population_history set_population_history].
  f_equal. change (set_population_history ?l (set_population_history ?l' g))
      with (set_population_history l g).
  f_equal. destruct h as [|a h']; [simpl in Hlen; lia|]. done.
Qed.

Lemma reads_only_ret {A} g (a : A) : reads_only g (ret a).
Proof. now exists a. Qed.

Lemma reads_only_bind {A B} g (m : M A) (k : A -> M B) :
  reads_only g m -> (forall a, reads_only g (k a)) -> reads_only g (bind m k).
Proof.
  intros [a Ha] Hk. destruct (Hk a) as [b Hb].
  exists b. now rewrite (bind_ok _ _ _ _ _ Ha).
Qed.

Lemma reads_only_bind_val {A B} g (m : M A) (k : A -> M B) a :
  m g = Ok (a, g) -> reads_only g (k a) -> reads_only g (bind m k).
Proof. intros Ha [b Hb]. exists b. now rewrite (bind_ok _ _ _ _ _ Ha). Qed.

Lemma reads_only_gets {A} g (f : Game -> A) : reads_only g (gets f).
Proof. now eexists. Qed.

Lemma reads_only_history_get g i :
  i < length (population_history g) -> reads_only g (history_get i).
Proof. intros H. eexists. now apply history_get_ok. Qed.

Lemma reads_only_if {A} g (c : bool) (m1 m2 : M A) :
  reads_only g m1 -> reads_only g m2 -> reads_only g (if c then m1 else m2).
Proof. now destruct c. Qed.

Lemma reads_only_if_decide {A} g P `{Decision P} (m1 m2 : M A) :
  (P -> reads_only g m1) -> (~ P -> reads_only g m2) ->
  reads_only g (if decide P then m1 else m2).
Proof. intros H1 H2. case_decide; auto. Qed.

Create HintDb reads discriminated.
#[local] Hint Resolve reads_only_ret reads_only_gets : reads.

(** With at least two entries in the window the checks read in range and
    leave the state alone. *)
Lemma stability_checks_total cfg g :
  length (population_history g) = HISTORY_SIZE cfg ->
  2 <= HISTORY_SIZE cfg ->
  reads_only g (stability_checks cfg).
Proof.
  intros Hlen Hn. unfold stability_checks.
  apply reads_only_bind; [apply reads_only_history_get; lia | intros h0].
  apply reads_only_bind; [apply reads_only_history_get; lia | intros h1].
  apply reads_only_if; [auto with reads|].
  apply reads_only_bind.
  - apply reads_only_if_decide; [intros H3 | auto with reads].
    apply reads_only_bind; [apply reads_only_history_get; lia | intros a0].
    apply reads_only_bind; [apply reads_only_history_get; lia | intros a2].
    apply reads_only_if; [|auto with reads].
    apply reads_only_bind; [apply reads_only_history_get; lia | intros c0].
    apply reads_only_bind; [apply reads_only_history_get; lia | intros c1].
    auto with reads.
  - intros period2. apply reads_only_if; [auto with reads|].
    apply reads_only_if_decide; [intros H3 | auto with reads].
    apply (reads_only_bind_val _ _ _ (population_history g)); [done|].
    apply reads_only_if_decide; [intros Hu | auto with reads].
    destruct (population_history g) as [|v h']; [simpl in Hlen; lia|].
    apply reads_only_bind; [simpl; auto with reads | intros mn].
    apply reads_only_bind; [simpl; auto with reads | intros mx].
    apply reads_only_if; auto with reads.
Qed.

(** With a window of one entry the static check reads past its end. *)
Lemma stability_checks_raise cfg g :
  length (population_history g) = 1 ->
  stability_checks cfg g = Raise IndexError.
Proof.
  intros Hlen. unfold stability_checks.
  erewrite bind_ok; [|apply history_get_ok; lia].
  apply bind_raise. apply history_get_raise. lia.
Qed.

(** ** [handle_stable_state] and the loop body in closed form *)

Lemma grid_ok_same_grid g g' :
  width g' = width g -> height g' = height g ->
  b1 g' = b1 g -> b2 g' = b2 g -> fade_buffer g' = fade_buffer g ->
  current_bitmap g' = current_bitmap g -> next_bitmap g' = next_bitmap g ->
  grid_ok g -> grid_ok g'.
Proof. unfold grid_ok. now intros -> -> -> -> -> -> ->. Qed.

Lemma check_stability_total cfg current_pop g :
  length (population_history g) = HISTORY_SIZE cfg ->
  2 <= HISTORY_SIZE cfg ->
  exists stable,
    check_stability cfg current_pop g = Ok (stable, pushed cfg current_pop g).
Proof.
  intros Hlen Hn. rewrite check_stability_eq by (done || lia).
  apply stability_checks_total; [|done].
  cbn [population_history pushed set_population_history length].
  rewrite length_take. lia.
Qed.

Lemma handle_stable_state_eq cfg rand g :
  AUTO_RESET_ON_STABLE cfg = true ->
  grid_ok g ->
  length (population_history g) = HISTORY_SIZE cfg ->
  2 <= HISTORY_SIZE cfg ->
  exists stable,
    reports_stable cfg g stable /\
    handle_stable_state cfg rand g
    = Ok (tt, after_check cfg rand stable
                (pushed cfg (alive_cells cfg (deref (current_bitmap g) g)) g)).
Proof.
  intros Hauto Hgrid Hlen Hn.
  set (pop := alive_cells cfg (deref (current_bitmap g) g)).
  destruct (check_stability_total cfg pop g Hlen Hn) as [stable Hst].
  exists stable. split.
  { exists pop, (pushed cfg pop g). split; [now apply count_population_eq | done]. }
  unfold handle_stable_state. rewrite Hauto. cbn [negb].
  erewrite bind_ok; [|now apply count_population_eq].
  erewrite bind_ok; [|exact Hst].
  unfold after_check. destruct stable.
  - unfold gets, modify, ret, bind.
    cbn [stable_count set_stable_count].
    destruct (STABLE_GENERATIONS cfg <=? _)%Z; [|done].
    rewrite (randomize_eq _ _ _ _ _ random_threshold_default).
    2:{ eapply grid_ok_same_grid; [..|exact Hgrid]; done. }
    done.
  - done.
Qed.

Lemma run_iteration_eq cfg g :
  grid_ok g ->
  run_iteration cfg g
  = Ok (tt,
        let nl := next_level cfg (width g) (height g)
                    (deref (current_bitmap g) g) (fade_buffer g)
                  <$> seq 0 (width g * height g) in
        set_root_group (if decide (root_group g = G1) then G2 else G1)
          (set_bitmap_refs (next_bitmap g) (current_bitmap g)
             (with_buffers (next_bitmap g) nl nl g))).
Proof.
  intros Hgrid. unfold run_iteration.
  erewrite bind_ok; [|now apply apply_life_rule_with_fade_eq].
  cbv zeta. unfold gets, modify, bind.
  destruct g as [? ? ? ? [] ? ? [] ? ? ? ? ?]; done.
Qed.

(** ** Well-formedness is kept *)

Lemma wf_with_buffers cfg r l g :
  wf cfg g -> length l = width g * height g -> Forall (in_levels cfg) l ->
  wf cfg (with_buffers r l l g).
Proof.
  intros [(H1 & H2 & H3 & H4) (L1 & L2 & L3)] Hlen Hl.
  destruct r; (split; [repeat split | repeat split]); done.
Qed.

Lemma length_fmap_seq (F : nat -> Z) n : length (F <$> seq 0 n) = n.
Proof. now rewrite length_fmap, length_seq. Qed.

Lemma random_level_in_levels cfg rand threshold i :
  valid_config cfg -> in_levels cfg (random_level cfg rand threshold i).
Proof.
  intros (HF & _). unfold random_level, in_levels.
  destruct (_ <? _)%Z; lia.
Qed.

Lemma wf_init cfg w h : valid_config cfg -> wf cfg (init cfg w h).
Proof.
  intros (HF & _). unfold wf, grid_ok, levels_ok, init. simpl.
  rewrite !length_replicate.
  assert (Forall (in_levels cfg) (replicate (w * h) 0%Z)).
  { apply Forall_replicate. unfold in_levels. lia. }
  repeat split; done.
Qed.

Lemma wf_randomized cfg rand threshold g :
  valid_config cfg -> wf cfg g -> wf cfg (randomized cfg rand threshold g).
Proof.
  intros Hc Hwf. apply wf_with_buffers; [done | apply length_fmap_seq |].
  apply Forall_fmap_seq. intros i _. now apply random_level_in_levels.
Qed.

Lemma wf_next_generation cfg g :
  valid_config cfg -> wf cfg g ->
  wf cfg (with_buffers (next_bitmap g)
            (next_level cfg (width g) (height g)
               (deref (current_bitmap g) g) (fade_buffer g)
             <$> seq 0 (width g * height g))
            (next_level cfg (width g) (height g)
               (deref (current_bitmap g) g) (fade_buffer g)
             <$> seq 0 (width g * height g)) g).
Proof.
  intros Hc Hwf. apply wf_with_buffers; [done | apply length_fmap_seq |].
  destruct Hwf as [(H1 & H2 & H3 & H4) (L1 & L2 & L3)].
  apply Forall_fmap_seq. intros i Hi.
  apply next_level_in_levels; [done | done | lia].
Qed.

Lemma wf_swap cfg r g :
  wf cfg g ->
  wf cfg (set_root_group r (set_bitmap_refs (next_bitmap g) (current_bitmap g) g)).
Proof.
  intros [(H1 & H2 & H3 & H4) (L1 & L2 & L3)].
  split; repeat split; done.
Qed.

Lemma wf_run_iteration cfg g :
  valid_config cfg -> wf cfg g ->
  exists g', run_iteration cfg g = Ok (tt, g') /\ wf cfg g'.
Proof.
  intros Hc Hwf. eexists. split; [apply run_iteration_eq, Hwf|].
  cbv zeta.
  pose proof (wf_next_generation cfg g Hc Hwf) as Hwf'.
  apply (wf_swap cfg (if decide (root_group g = G1) then G2 else G1)) in Hwf'.
  now rewrite next_bitmap_with_buffers, current_bitmap_with_buffers in Hwf'.
Qed.

Lemma wf_run_loop cfg n :
  valid_config cfg ->
  forall g, wf cfg g -> exists g', run_loop cfg n g = Ok (tt, g') /\ wf cfg g'.
Proof.
  intros Hc. induction n as [|n IH]; intros g Hwf; simpl.
  - now exists g.
  - destruct (wf_run_iteration cfg g Hc Hwf) as (g1 & E1 & Hwf1).
    rewrite (bind_ok _ _ _ _ _ E1). now apply IH.
Qed.

(** Every state the program reaches is well formed. *)
Lemma wf_run cfg rand n w h :
  valid_config cfg ->
  exists g', run cfg rand n (init cfg w h) = Ok (tt, g') /\ wf cfg g'.
Proof.
  intros Hc. unfold run, run_prologue.
  assert (Hwf : wf cfg (set_auto_refresh true (init cfg w h)))
    by (pose proof (wf_init cfg w h Hc) as [(?&?&?&?) (?&?&?)]; split; repeat split; done).
  erewrite bind_ok.
  2:{ erewrite bind_ok; [|reflexivity].
      apply (randomize_eq _ _ _ _ _ random_threshold_default), Hwf. }
  apply wf_run_loop; [done|]. now apply wf_randomized.
Qed.

(** * The claims *)

Ltac solve_valid_config := unfold valid_config; simpl; lia.

Ltac solve_grid_ok :=
  unfold grid_ok; simpl; repeat split; (reflexivity || discriminate).

Ltac solve_levels :=
  repeat first [apply Forall_nil_2 | apply Forall_cons; split];
  unfold in_levels; simpl; lia.

Ltac solve_wf :=
  split; [solve_grid_ok | unfold levels_ok; simpl; repeat split; solve_levels].

(** C1. For every well-formed grid state and every cell (x, y), one pass of
    apply_life_rule_with_fade leaves the max fade level in the next buffer
    at that cell iff the cell's toroidally wrapped 8-neighbourhood in the
    current buffer holds exactly 3 cells at the max fade level, or exactly 2
    and the cell itself is at the max fade level.  Only cells at exactly the
    max level are counted.  On the 3x3 grid with only (0,0) alive, cell
    (2,2) counts one neighbour, both in the wrapped count and in the count
    the loop body makes with the offsets it computes for (2,2). *)
Theorem life_rule_next_generation :
  (forall cfg g x y,
     valid_config cfg -> wf cfg g -> x < width g -> y < height g ->
     exists g' v,
       apply_life_rule_with_fade cfg g = Ok (tt, g') /\
       next_bitmap g' = next_bitmap g /\
       deref (next_bitmap g') g' !! (x + y * width g) = Some v /\
       let cur := deref (current_bitmap g) g in
       let n := toroidal_neighbors cfg (width g) (height g) cur x y in
       (v = max_fade cfg <->
        n = 3%Z \/ (n = 2%Z /\ cell_at cur (x + y * width g) = max_fade cfg))) /\
  toroidal_neighbors source_config 3 3 (b1 corner_grid) 2 2 = 1%Z /\
  toroidal_neighbors source_config 3 3 (replicate 9 0%Z) 2 2 = 0%Z /\
  wrap 3 (2 + 1) + wrap 3 (2 + 1) * 3 = 0 /\
  count_neighbors source_config B1 (prev_wrap 3 2) 2 (next_wrap 3 2)
    (prev_wrap 3 2 * 3) (2 * 3) (next_wrap 3 2 * 3) corner_grid
  = Ok (1%Z, corner_grid).
Proof.
  split; [|repeat split; reflexivity].
  intros cfg g x y Hc Hwf Hx Hy.
  pose proof Hwf as [Hgrid (L1 & L2 & L3)].
  pose proof Hgrid as (H1 & H2 & H3 & H4).
  pose proof (cell_index_bound _ _ _ _ Hx Hy) as Hk.
  eexists. eexists. split; [now apply apply_life_rule_with_fade_eq|].
  cbv zeta.
  rewrite next_bitmap_with_buffers, deref_with_buffers. split; [done|].
  split; [now apply lookup_fmap_seq|].
  unfold next_level. rewrite cell_index_mod, cell_index_div by done.
  rewrite <- lives_iff by done.
  destruct (lives _ _ _ _ _ _); [done|].
  split; [|discriminate]. intros Hd. exfalso.
  apply (decay_below_max cfg (cell_at (fade_buffer g) (x + y * width g))); try done.
  apply cell_at_in_levels; [done | lia].
Qed.

(** The wrap seen from outside: on a 3x3 grid, cell (2,2) is born when
    (0,0), (1,0) and (0,1) are alive, and stays dead when only (1,0) and
    (0,1) are: it counts (0,0). *)
Example corner_wraps_around :
  (exists g',
     apply_life_rule_with_fade source_config
       (set_b1 [7; 7; 0; 7; 0; 0; 0; 0; 0]%Z (init source_config 3 3)) = Ok (tt, g') /\
     b2 g' !! 8 = Some 7%Z) /\
  (exists g',
     apply_life_rule_with_fade source_config
       (set_b1 [0; 7; 0; 7; 0; 0; 0; 0; 0]%Z (init source_config 3 3)) = Ok (tt, g') /\
     b2 g' !! 8 = Some 0%Z).
Proof. split; eexists; (split; [vm_compute; reflexivity | reflexivity]). Qed.

Lemma life_rule_next_generation_witness :
  valid_config source_config /\ wf source_config corner_grid /\
  2 < width corner_grid /\ 2 < height corner_grid /\
  exists g' v,
    apply_life_rule_with_fade source_config corner_grid = Ok (tt, g') /\
    next_bitmap g' = next_bitmap corner_grid /\
    deref (next_bitmap g') g' !! (2 + 2 * width corner_grid) = Some v /\
    let cur := deref (current_bitmap corner_grid) corner_grid in
    let n := toroidal_neighbors source_config (width corner_grid)
               (height corner_grid) cur 2 2 in
    (v = max_fade source_config <->
     n = 3%Z \/ (n = 2%Z /\ cell_at cur (2 + 2 * width corner_grid)
                            = max_fade source_config)).
Proof.
  assert (Hc : valid_config source_config) by solve_valid_config.
  assert (Hwf : wf source_config corner_grid) by solve_wf.
  assert (Hx : 2 < width corner_grid) by (simpl; lia).
  assert (Hy : 2 < height corner_grid) by (simpl; lia).
  split; [exact Hc|]. split; [exact Hwf|]. split; [exact Hx|]. split; [exact Hy|].
  exact (proj1 life_rule_next_generation source_config corner_grid 2 2 Hc Hwf Hx Hy).
Defined.

(** C6. For every cell that is not alive in the next generation (its count
    is not 3, and it is not the case that the count is 2 and the cell is at
    the max level), the pass leaves max(0, old fade - FADE_DECAY_RATE) in
    the fade buffer and the same value in the next buffer; that value is at
    most the old fade value and at least 0. *)
Theorem fade_decay_when_not_alive cfg g x y :
  valid_config cfg -> wf cfg g -> x < width g -> y < height g ->
  let cur := deref (current_bitmap g) g in
  let n := toroidal_neighbors cfg (width g) (height g) cur x y in
  let old := cell_at (fade_buffer g) (x + y * width g) in
  let new := Z.max 0 (old - FADE_DECAY_RATE cfg) in
  n <> 3%Z ->
  ~ (n = 2%Z /\ cell_at cur (x + y * width g) = max_fade cfg) ->
  exists g',
    apply_life_rule_with_fade cfg g = Ok (tt, g') /\
    fade_buffer g !! (x + y * width g) = Some old /\
    fade_buffer g' !! (x + y * width g) = Some new /\
    deref (next_bitmap g) g' !! (x + y * width g) = Some new /\
    (new <= old)%Z /\ (0 <= new)%Z.
Proof.
  intros Hc Hwf Hx Hy cur n old new Hn3 Hn2.
  pose proof Hwf as [Hgrid (L1 & L2 & L3)].
  pose proof Hgrid as (H1 & H2 & H3 & H4).
  pose proof (cell_index_bound _ _ _ _ Hx Hy) as Hk.
  assert (Hold : in_levels cfg old) by (apply cell_at_in_levels; [done | lia]).
  assert (Hlv : next_level cfg (width g) (height g) cur (fade_buffer g) (x + y * width g)
                = new).
  { unfold next_level. rewrite cell_index_mod, cell_index_div by done.
    destruct (lives _ _ _ _ _ _) eqn:E.
    - apply lives_iff in E; [|done..]. cbv zeta in E. tauto.
    - apply decay_max; [done|]. unfold in_levels in Hold. lia. }
  eexists. split; [now apply apply_life_rule_with_fade_eq|].
  cbv zeta. rewrite deref_with_buffers.
  rewrite fade_buffer_with_buffers, lookup_fmap_seq by done. fold cur. rewrite Hlv.
  split; [apply cell_at_lookup; lia|].
  destruct Hc as (_ & HR & _). unfold in_levels in Hold.
  repeat split; subst new; lia.
Qed.

Lemma fade_decay_when_not_alive_witness :
  exists g',
    apply_life_rule_with_fade source_config lonely_grid = Ok (tt, g') /\
    fade_buffer lonely_grid !! 0 = Some 7%Z /\
    fade_buffer g' !! 0 = Some 6%Z /\
    deref (next_bitmap lonely_grid) g' !! 0 = Some 6%Z /\
    (6 <= 7)%Z /\ (0 <= 6)%Z.
Proof.
  apply (fade_decay_when_not_alive source_config lonely_grid 0 0).
  - solve_valid_config.
  - solve_wf.
  - simpl; lia.
  - simpl; lia.
  - vm_compute. discriminate.
  - vm_compute. intros [H _]. discriminate.
Defined.

(** C7. Every value in the current, next and fade buffers lies in
    [0, FADE_LEVELS-1]: this holds of the freshly constructed object, is
    kept by randomize (for every fraction whose threshold int(fraction *
    32767) exists; for a NaN or infinite product randomize raises at line
    78, before any write), by apply_life_rule_with_fade and by the whole
    loop body (pass and swap), and so holds in every state run reaches; a
    cell is alive iff its value is FADE_LEVELS-1. *)
Theorem levels_invariant cfg :
  valid_config cfg ->
  (forall w h, wf cfg (init cfg w h)) /\
  (forall g rand fraction,
     wf cfg g ->
     match random_threshold fraction with
     | Ok _ => exists g', randomize cfg rand fraction g = Ok (tt, g') /\ wf cfg g'
     | Raise e => randomize cfg rand fraction g = Raise e
     end) /\
  (forall g,
     wf cfg g ->
     exists g', apply_life_rule_with_fade cfg g = Ok (tt, g') /\ wf cfg g') /\
  (forall g,
     wf cfg g -> exists g', run_iteration cfg g = Ok (tt, g') /\ wf cfg g') /\
  (forall rand n w h,
     exists g', run cfg rand n (init cfg w h) = Ok (tt, g') /\ wf cfg g') /\
  (forall v, is_alive cfg v = true <-> v = (FADE_LEVELS cfg - 1)%Z).
Proof.
  intros Hc. split; [|split; [|split; [|split; [|split]]]].
  - intros w h. now apply wf_init.
  - intros g rand fraction Hwf.
    destruct (random_threshold fraction) as [threshold|e] eqn:Ht.
    + eexists. split.
      * apply (randomize_eq _ _ _ _ _ Ht), Hwf.
      * now apply wf_randomized.
    + now apply randomize_raise.
  - intros g Hwf. eexists. split.
    + apply apply_life_rule_with_fade_eq, Hwf.
    + now apply wf_next_generation.
  - intros g Hwf. now apply wf_run_iteration.
  - intros rand n w h. now apply wf_run.
  - intros v. unfold is_alive. apply Z.eqb_eq.
Qed.

Lemma levels_invariant_witness :
  valid_config source_config /\
  exists g', run_iteration source_config lonely_grid = Ok (tt, g') /\
             wf source_config g'.
Proof.
  assert (Hc : valid_config source_config) by solve_valid_config.
  split; [exact Hc|].
  apply (proj1 (proj2 (proj2 (proj2 (levels_invariant source_config Hc))))).
  solve_wf.
Defined.

Lemma alive_cells_replicate_max cfg n :
  alive_cells cfg (replicate n (FADE_LEVELS cfg - 1)%Z) = Z.of_nat n.
Proof.
  induction n as [|n IH]; [done|].
  cbn [replicate]. rewrite alive_cells_cons, IH, Z.eqb_refl. lia.
Qed.

Lemma alive_cells_replicate_zero cfg n :
  FADE_LEVELS cfg <> 1%Z -> alive_cells cfg (replicate n 0%Z) = 0%Z.
Proof.
  intros H. induction n as [|n IH]; [done|].
  cbn [replicate]. rewrite alive_cells_cons, IH.
  destruct (Z.eqb_spec 0 (FADE_LEVELS cfg - 1)); lia.
Qed.

(** C9. count_population returns exactly the number of cells of the
    current bitmap equal to FADE_LEVELS-1 (and leaves the state as it is);
    it returns 0 when every cell is 0 and width*height when every cell is
    FADE_LEVELS-1. *)
Theorem count_population_counts_alive cfg g :
  valid_config cfg -> grid_ok g ->
  let buffer := deref (current_bitmap g) g in
  count_population cfg g = Ok (alive_cells cfg buffer, g) /\
  (buffer = replicate (width g * height g) 0%Z ->
   count_population cfg g = Ok (0%Z, g)) /\
  (buffer = replicate (width g * height g) (FADE_LEVELS cfg - 1)%Z ->
   count_population cfg g = Ok (Z.of_nat (width g * height g), g)).
Proof.
  intros (HF & _) Hgrid buffer. subst buffer.
  rewrite (count_population_eq cfg g Hgrid).
  split; [done|]. split; intros ->.
  - rewrite alive_cells_replicate_zero; [done | lia].
  - now rewrite alive_cells_replicate_max.
Qed.

Lemma count_population_counts_alive_witness :
  count_population source_config corner_grid = Ok (1%Z, corner_grid) /\
  count_population source_config (init source_config 3 3)
  = Ok (0%Z, init source_config 3 3) /\
  count_population source_config (set_b1 (replicate 9 7%Z) (init source_config 3 3))
  = Ok (9%Z, set_b1 (replicate 9 7%Z) (init source_config 3 3)).
Proof.
  assert (Hc : valid_config source_config) by solve_valid_config.
  split; [|split].
  - apply (count_population_counts_alive source_config corner_grid Hc).
    solve_grid_ok.
  - apply (count_population_counts_alive source_config (init source_config 3 3) Hc).
    + solve_grid_ok.
    + reflexivity.
  - apply (count_population_counts_alive source_config
             (set_b1 (replicate 9 7%Z) (init source_config 3 3)) Hc).
    + solve_grid_ok.
    + reflexivity.
Defined.

(** C10. apply_life_rule_with_fade is deterministic in the current bitmap
    and the fade buffer: two runs from states with the same dimensions, the
    same current-bitmap contents and the same fade-buffer contents end with
    equal next-bitmap contents and equal fade-buffer contents, whatever
    else differs (stale next-bitmap contents, which bitmap plays which
    role, tracking fields).  The pass takes no random input. *)
Theorem life_rule_deterministic cfg g1 g2 :
  grid_ok g1 -> grid_ok g2 ->
  width g1 = width g2 -> height g1 = height g2 ->
  deref (current_bitmap g1) g1 = deref (current_bitmap g2) g2 ->
  fade_buffer g1 = fade_buffer g2 ->
  exists g1' g2',
    apply_life_rule_with_fade cfg g1 = Ok (tt, g1') /\
    apply_life_rule_with_fade cfg g2 = Ok (tt, g2') /\
    deref (next_bitmap g1') g1' = deref (next_bitmap g2') g2' /\
    fade_buffer g1' = fade_buffer g2'.
Proof.
  intros Hg1 Hg2 Hw Hh Hcur Hfade.
  eexists. eexists.
  split; [now apply apply_life_rule_with_fade_eq|].
  split; [now apply apply_life_rule_with_fade_eq|].
  cbv zeta.
  rewrite !next_bitmap_with_buffers, !deref_with_buffers, !fade_buffer_with_buffers.
  now rewrite Hw, Hh, Hcur, Hfade.
Qed.

Lemma life_rule_deterministic_witness :
  exists g1' g2',
    apply_life_rule_with_fade source_config lonely_grid = Ok (tt, g1') /\
    apply_life_rule_with_fade source_config lonely_grid_other = Ok (tt, g2') /\
    deref (next_bitmap g1') g1' = deref (next_bitmap g2') g2' /\
    fade_buffer g1' = fade_buffer g2'.
Proof.
  apply (life_rule_deterministic source_config lonely_grid lonely_grid_other).
  - solve_grid_ok.
  - solve_grid_ok.
  - reflexivity.
  - reflexivity.
  - reflexivity.
  - reflexivity.
Defined.

(** *** The checks against the specification's predicate *)

Lemma foldl_max_spec (l : list Z) :
  forall v, is_max (v :: l) (foldl Z.max v l).
Proof.
  unfold is_max. induction l as [|x l IH]; intros v; simpl.
  - split; [left|]. intros y Hy. apply list_elem_of_singleton in Hy. lia.
  - destruct (IH (Z.max v x)) as [Hin Hle]. split.
    + apply elem_of_cons in Hin as [Hin|Hin].
      * rewrite Hin. destruct (Z.max_spec v x) as [[_ ->]|[_ ->]];
          [right; left | left].
      * right. now right.
    + intros y Hy. apply elem_of_cons in Hy as [->|Hy].
      * etrans; [apply (Z.le_max_l v x)|]. apply Hle. left.
      * apply elem_of_cons in Hy as [->|Hy].
        -- etrans; [apply (Z.le_max_r v x)|]. apply Hle. left.
        -- apply Hle. now right.
Qed.

Lemma foldl_min_spec (l : list Z) :
  forall v, is_min (v :: l) (foldl Z.min v l).
Proof.
  unfold is_min. induction l as [|x l IH]; intros v; simpl.
  - split; [left|]. intros y Hy. apply list_elem_of_singleton in Hy. lia.
  - destruct (IH (Z.min v x)) as [Hin Hle]. split.
    + apply elem_of_cons in Hin as [Hin|Hin].
      * rewrite Hin. destruct (Z.min_spec v x) as [[_ ->]|[_ ->]];
          [left | right; left].
      * right. now right.
    + intros y Hy. apply elem_of_cons in Hy as [->|Hy].
      * etrans; [|apply (Z.le_min_l v x)]. apply Hle. left.
      * apply elem_of_cons in Hy as [->|Hy].
        -- etrans; [|apply (Z.le_min_r v x)]. apply Hle. left.
        -- apply Hle. now right.
Qed.

Lemma is_max_unique (h : list Z) a b : is_max h a -> is_max h b -> a = b.
Proof. intros [Ha Hla] [Hb Hlb]. specialize (Hla b Hb). specialize (Hlb a Ha). lia. Qed.

Lemma is_min_unique (h : list Z) a b : is_min h a -> is_min h b -> a = b.
Proof. intros [Ha Hla] [Hb Hlb]. specialize (Hla b Hb). specialize (Hlb a Ha). lia. Qed.

Lemma size_list_to_set_remove_dups (l : list Z) :
  size (list_to_set l : gset Z) = length (remove_dups l).
Proof.
  rewrite <- (size_list_to_set (C := gset Z) (remove_dups l))
    by apply NoDup_remove_dups.
  f_equal. apply set_eq. intros x.
  now rewrite !elem_of_list_to_set, elem_of_remove_dups.
Qed.

(** The last check of the source (lines 186-192), on a non-empty window. *)
Lemma oscillation_check_iff (v : Z) (l : list Z) :
  3 <= length (v :: l) ->
  (size (list_to_set (v :: l) : gset Z) <= 3 /\
   (foldl Z.max v l - foldl Z.min v l <= 2)%Z)
  <-> is_bounded_oscillation (v :: l).
Proof.
  intros Hlen. unfold is_bounded_oscillation.
  rewrite size_list_to_set_remove_dups. split.
  - intros [Hsz Hd]. split; [done|]. split; [done|].
    exists (foldl Z.max v l), (foldl Z.min v l).
    split; [apply foldl_max_spec|]. split; [apply foldl_min_spec | done].
  - intros (_ & Hsz & hi & lo & Hhi & Hlo & Hd). split; [done|].
    rewrite (is_max_unique _ _ _ (foldl_max_spec l v) Hhi).
    now rewrite (is_min_unique _ _ _ (foldl_min_spec l v) Hlo).
Qed.

(** The checks of lines 175-194 answer as the specification's predicate
    does, on every window of the configured length. *)
Lemma stability_checks_isStable cfg g :
  length (population_history g) = HISTORY_SIZE cfg ->
  2 <= HISTORY_SIZE cfg ->
  exists stable,
    stability_checks cfg g = Ok (stable, g) /\
    (stable = true <-> isStable (population_history g)).
Proof.
  intros Hlen Hn.
  destruct (population_history g) as [|a [|b rest]] eqn:Hh;
    [simpl in Hlen; lia | simpl in Hlen; lia |].
  assert (H0 : history_get 0 g = Ok (a, g))
    by (unfold history_get; now rewrite Hh).
  assert (H1 : history_get 1 g = Ok (b, g))
    by (unfold history_get; now rewrite Hh).
  unfold stability_checks.
  rewrite (bind_ok _ _ _ _ _ H0), (bind_ok _ _ _ _ _ H1).
  destruct (Z.eqb_spec a b) as [Eab|Nab].
  { exists true. split; [done|]. split; [|done].
    intros _. left. exists a. subst b. done. }
  assert (Hns : ~ is_static (a :: b :: rest)).
  { intros (v & Hv0 & Hv1). simpl in Hv0, Hv1. congruence. }
  case_decide as H3.
  - destruct rest as [|c rest]; [simpl in Hlen; lia|].
    assert (H2 : history_get 2 g = Ok (c, g))
      by (unfold history_get; now rewrite Hh).
    erewrite bind_ok.
    2:{ rewrite (bind_ok _ _ _ _ _ H0), (bind_ok _ _ _ _ _ H2).
        instantiate (1 := g). instantiate (1 := (a =? c)%Z).
        destruct (a =? c)%Z; [|done].
        rewrite (bind_ok _ _ _ _ _ H0), (bind_ok _ _ _ _ _ H1).
        unfold ret. destruct (Z.eqb_spec a b); [done | done]. }
    destruct (Z.eqb_spec a c) as [Eac|Nac].
    { exists true. split; [done|]. split; [|done].
      intros _. right. left. split; [simpl; lia|].
      exists a, b. subst c. done. }
    assert (Hnp : ~ is_period_2 (a :: b :: c :: rest)).
    { intros (_ & v & w & Hv0 & Hv2 & _). simpl in Hv0, Hv2. congruence. }
    erewrite bind_ok; [|reflexivity]. rewrite Hh.
    pose proof (oscillation_check_iff a (b :: c :: rest) ltac:(simpl; lia)) as Hosc.
    case_decide as Hsz.
    + erewrite bind_ok; [|reflexivity].
      erewrite bind_ok; [|reflexivity].
      destruct (Z.leb_spec (foldl Z.max a (b :: c :: rest)
                            - foldl Z.min a (b :: c :: rest)) 2) as [Hd|Hd].
      * exists true. split; [done|]. split; [|done].
        intros _. right. right. apply Hosc. done.
      * exists false. split; [done|]. split; [done|].
        intros [Hs|[Hp|Hb]]; [done | done |].
        apply Hosc in Hb. lia.
    + exists false. split; [done|]. split; [done|].
      intros [Hs|[Hp|Hb]]; [done | done |].
      apply Hosc in Hb. tauto.
  - erewrite bind_ok; [|reflexivity].
    exists false. split; [done|]. split; [done|].
    assert (Hl2 : length (a :: b :: rest) < 3) by (rewrite Hlen; lia).
    intros [Hs|[(Hl & _)|(Hl & _)]]; [done | lia | lia].
Qed.

(** C2. The checks of check_stability (lines 175-194), run in source order
    on a window of the configured length, answer true exactly when the
    window is stable in the specification's sense: static
    (history[0] = history[1]), or period-2 (history[0] = history[2] and
    history[0] <> history[1], window of at least 3), or bounded oscillation
    (at most 3 distinct values and max - min <= 2, window of at least 3);
    check_stability gives that answer on the window with the new count
    pushed in front.  In particular the answer is true on [5,5,5], true on
    [5,7,5] and false on [5,7,9]. *)
Theorem stability_examples :
  (forall cfg g,
     length (population_history g) = HISTORY_SIZE cfg ->
     2 <= HISTORY_SIZE cfg ->
     exists stable,
       stability_checks cfg g = Ok (stable, g) /\
       (stable = true <-> isStable (population_history g))) /\
  (forall cfg current_pop g,
     length (population_history g) = HISTORY_SIZE cfg ->
     2 <= HISTORY_SIZE cfg ->
     exists stable g',
       check_stability cfg current_pop g = Ok (stable, g') /\
       population_history g'
       = current_pop :: take (HISTORY_SIZE cfg - 1) (population_history g) /\
       (stable = true <-> isStable (population_history g'))) /\
  (forall g,
     stability_checks source_config (set_population_history [5; 5; 5]%Z g)
     = Ok (true, set_population_history [5; 5; 5]%Z g)) /\
  (forall g,
     stability_checks source_config (set_population_history [5; 7; 5]%Z g)
     = Ok (true, set_population_history [5; 7; 5]%Z g)) /\
  (forall g,
     stability_checks source_config (set_population_history [5; 7; 9]%Z g)
     = Ok (false, set_population_history [5; 7; 9]%Z g)) /\
  (forall g oldest,
     check_stability source_config 5 (set_population_history [5; 5; oldest]%Z g)
     = Ok (true, set_population_history [5; 5; 5]%Z g)) /\
  (forall g oldest,
     check_stability source_config 5 (set_population_history [7; 5; oldest]%Z g)
     = Ok (true, set_population_history [5; 7; 5]%Z g)) /\
  (forall g oldest,
     check_stability source_config 5 (set_population_history [7; 9; oldest]%Z g)
     = Ok (false, set_population_history [5; 7; 9]%Z g)).
Proof.
  split; [|split; [|repeat split; intros; reflexivity]].
  - intros cfg g. apply stability_checks_isStable.
  - intros cfg current_pop g Hlen Hn.
    assert (Hlen' : length (population_history (pushed cfg current_pop g))
                    = HISTORY_SIZE cfg).
    { cbn [pushed population_history set_population_history length].
      rewrite length_take. lia. }
    destruct (stability_checks_isStable cfg (pushed cfg current_pop g) Hlen' Hn)
      as (stable & E & Hiff).
    exists stable, (pushed cfg current_pop g).
    rewrite check_stability_eq by (done || lia). done.
Qed.

Lemma stability_examples_witness :
  exists stable g',
    check_stability source_config 6 lonely_grid_other = Ok (stable, g') /\
    population_history g' = [6; 4; 2]%Z /\
    (stable = true <-> isStable (population_history g')).
Proof.
  apply (proj1 (proj2 stability_examples) source_config 6%Z lonely_grid_other).
  - reflexivity.
  - simpl; lia.
Defined.

(** ** Stability handling *)

Lemma reports_stable_functional cfg g b b' :
  reports_stable cfg g b -> reports_stable cfg g b' -> b = b'.
Proof.
  intros (p & g1 & Hp & Hb) (p' & g1' & Hp' & Hb').
  rewrite Hp in Hp'. injection Hp' as <-.
  rewrite Hb in Hb'. now injection Hb'.
Qed.

Lemma handle_stable_state_stable cfg rand g :
  AUTO_RESET_ON_STABLE cfg = true ->
  grid_ok g ->
  length (population_history g) = HISTORY_SIZE cfg ->
  2 <= HISTORY_SIZE cfg ->
  reports_stable cfg g true ->
  handle_stable_state cfg rand g
  = Ok (tt, after_check cfg rand true
              (pushed cfg (alive_cells cfg (deref (current_bitmap g) g)) g)).
Proof.
  intros Hauto Hgrid Hlen Hn Hst.
  destruct (handle_stable_state_eq cfg rand g Hauto Hgrid Hlen Hn) as (b & Hb & E).
  now rewrite (reports_stable_functional _ _ _ _ Hst Hb).
Qed.

Lemma handle_stable_state_unstable cfg rand g :
  AUTO_RESET_ON_STABLE cfg = true ->
  grid_ok g ->
  length (population_history g) = HISTORY_SIZE cfg ->
  2 <= HISTORY_SIZE cfg ->
  reports_stable cfg g false ->
  exists g',
    handle_stable_state cfg rand g = Ok (tt, g') /\
    stable_count g' = 0%Z /\
    generation g' = (generation g + 1)%Z /\
    console g' = console g.
Proof.
  intros Hauto Hgrid Hlen Hn Hst.
  destruct (handle_stable_state_eq cfg rand g Hauto Hgrid Hlen Hn) as (b & Hb & E).
  rewrite <- (reports_stable_functional _ _ _ _ Hst Hb) in E.
  eexists. split; [exact E|]. done.
Qed.

Lemma length_pushed cfg current_pop g :
  length (population_history g) = HISTORY_SIZE cfg ->
  1 <= HISTORY_SIZE cfg ->
  length (population_history (pushed cfg current_pop g)) = HISTORY_SIZE cfg.
Proof.
  intros Hlen Hn. cbn [pushed population_history set_population_history length].
  rewrite length_take. lia.
Qed.

(** Below the threshold a stable generation only counts. *)
Lemma stable_streak_below cfg n g0 g :
  AUTO_RESET_ON_STABLE cfg = true ->
  2 <= HISTORY_SIZE cfg ->
  length (population_history g0) = HISTORY_SIZE cfg ->
  stable_count g0 = 0%Z ->
  stable_streak cfg n g0 g ->
  (Z.of_nat n < STABLE_GENERATIONS cfg)%Z ->
  stable_count g = Z.of_nat n /\
  generation g = (generation g0 + Z.of_nat n)%Z /\
  console g = console g0 /\
  length (population_history g) = HISTORY_SIZE cfg.
Proof.
  intros Hauto Hn Hlen0 Hsc0 Hrun.
  induction Hrun as [g | n g0 g g_in rand g' Hrun IH (Th & Ts & Tg & Tc) Hgrid Hst Hh];
    intros Hlt.
  - rewrite Hsc0. simpl. repeat split; (done || lia).
  - destruct (IH Hlen0 Hsc0 ltac:(lia)) as (Isc & Igen & Icon & Ilen).
    assert (Hlen : length (population_history g_in) = HISTORY_SIZE cfg) by congruence.
    rewrite (handle_stable_state_stable cfg rand g_in Hauto Hgrid Hlen Hn Hst) in Hh.
    injection Hh as <-. unfold after_check.
    cbn [stable_count set_stable_count pushed set_population_history].
    rewrite Ts, Isc.
    destruct (Z.leb_spec (STABLE_GENERATIONS cfg) (Z.of_nat n + 1)); [lia|].
    cbn. rewrite length_take, ?Th, ?Tg, ?Tc, ?Igen, ?Icon, ?Ilen.
    repeat split; (done || lia).
Qed.

(** At the threshold a stable generation reseeds. *)
Lemma handle_stable_state_reseed cfg rand g :
  AUTO_RESET_ON_STABLE cfg = true ->
  grid_ok g ->
  length (population_history g) = HISTORY_SIZE cfg ->
  2 <= HISTORY_SIZE cfg ->
  reports_stable cfg g true ->
  (STABLE_GENERATIONS cfg <= stable_count g + 1)%Z ->
  exists g',
    handle_stable_state cfg rand g = Ok (tt, g') /\
    generation g' = 1%Z /\
    stable_count g' = 0%Z /\
    population_history g' = replicate (HISTORY_SIZE cfg) 0%Z /\
    console g' = console g ++ [PrintReset (generation g); Sleep].
Proof.
  intros Hauto Hgrid Hlen Hn Hst Hsc.
  eexists. split; [now apply handle_stable_state_stable|].
  unfold after_check.
  cbn [stable_count set_stable_count pushed set_population_history].
  destruct (Z.leb_spec (STABLE_GENERATIONS cfg) (stable_count g + 1)); [|lia].
  unfold reseeded, randomized. cbv zeta.
  destruct (current_bitmap _); cbn; now rewrite <- app_assoc.
Qed.

(** C3 (defect).  When handle_stable_state finds the population stable and
    the incremented stable_count reaches STABLE_GENERATIONS, it reseeds:
    one reset is printed, the history becomes all-zero and stable_count
    becomes 0, but the call ends with generation equal to 1, not 0, because
    the final [self.generation += 1] (line 220) also runs after the reset
    of line 214. *)
Theorem reseed_leaves_generation_one cfg rand g :
  AUTO_RESET_ON_STABLE cfg = true ->
  grid_ok g ->
  length (population_history g) = HISTORY_SIZE cfg ->
  2 <= HISTORY_SIZE cfg ->
  reports_stable cfg g true ->
  (STABLE_GENERATIONS cfg <= stable_count g + 1)%Z ->
  exists g',
    handle_stable_state cfg rand g = Ok (tt, g') /\
    generation g' = 1%Z /\
    generation g' <> 0%Z /\
    stable_count g' = 0%Z /\
    population_history g' = replicate (HISTORY_SIZE cfg) 0%Z /\
    console g' = console g ++ [PrintReset (generation g); Sleep].
Proof.
  intros Hauto Hgrid Hlen Hn Hst Hsc.
  destruct (handle_stable_state_reseed cfg rand g Hauto Hgrid Hlen Hn Hst Hsc)
    as (g' & E & G1 & G2 & G3 & G4).
  exists g'. rewrite G1. repeat split; done.
Qed.

Lemma reseed_leaves_generation_one_witness :
  exists g',
    handle_stable_state source_config (fun _ => 0%Z) ninth_stable = Ok (tt, g') /\
    generation g' = 1%Z /\
    generation g' <> 0%Z /\
    stable_count g' = 0%Z /\
    population_history g' = [0; 0; 0]%Z /\
    console g' = [PrintReset 9; Sleep].
Proof.
  apply (reseed_leaves_generation_one source_config (fun _ => 0%Z) ninth_stable).
  - reflexivity.
  - solve_grid_ok.
  - reflexivity.
  - simpl; lia.
  - exists 0%Z. eexists. split; reflexivity.
  - simpl; lia.
Defined.

(** Ten stable generations in a row, counted from a reset: the first nine
    only count, and the tenth reseeds, exactly once. *)
Lemma stable_streak_reseeds_at_threshold cfg n g0 g :
  AUTO_RESET_ON_STABLE cfg = true ->
  2 <= HISTORY_SIZE cfg ->
  length (population_history g0) = HISTORY_SIZE cfg ->
  stable_count g0 = 0%Z ->
  (1 <= STABLE_GENERATIONS cfg)%Z ->
  stable_streak cfg n g0 g ->
  Z.of_nat n = STABLE_GENERATIONS cfg ->
  generation g = 1%Z /\
  stable_count g = 0%Z /\
  population_history g = replicate (HISTORY_SIZE cfg) 0%Z /\
  console g = console g0
              ++ [PrintReset (generation g0 + STABLE_GENERATIONS cfg - 1); Sleep].
Proof.
  intros Hauto Hn Hlen0 Hsc0 Hsg Hrun Hth.
  inversion Hrun as [| m g0' g1 g_in rand g' Hprev (Th & Ts & Tg & Tc) Hgrid Hst Hh];
    subst; [simpl in Hth; lia|].
  destruct (stable_streak_below cfg m g0 g1 Hauto Hn Hlen0 Hsc0 Hprev ltac:(lia))
    as (Isc & Igen & Icon & Ilen).
  assert (Hlen : length (population_history g_in) = HISTORY_SIZE cfg) by congruence.
  destruct (handle_stable_state_reseed cfg rand g_in Hauto Hgrid Hlen Hn Hst
              ltac:(lia)) as (g2 & E & G1 & G2 & G3 & G4).
  rewrite Hh in E. injection E as <-.
  repeat split; try done.
  rewrite G4, Tc, Tg, Icon, Igen. do 3 f_equal. lia.
Qed.

(** Ten calls in a row on a dead 2x2 grid, from the freshly constructed
    object: nine calls only count, the tenth reseeds and leaves
    [generation] at 1. *)
Example ten_stable_generations :
  (exists g9,
     handle_stable_state_times source_config (fun _ => 32767%Z) 9
       (init source_config 2 2) = Ok (tt, g9) /\
     stable_count g9 = 9%Z /\ generation g9 = 9%Z /\ console g9 = []) /\
  (exists g10,
     handle_stable_state_times source_config (fun _ => 32767%Z) 10
       (init source_config 2 2) = Ok (tt, g10) /\
     stable_count g10 = 0%Z /\ generation g10 = 1%Z /\
     population_history g10 = [0; 0; 0]%Z /\
     console g10 = [PrintReset 9; Sleep]).
Proof.
  split; eexists; (split; [vm_compute; reflexivity|]); repeat split; reflexivity.
Qed.

(** ** The loop body *)

Lemma grid_ok_run_iteration cfg g :
  grid_ok g -> exists g', run_iteration cfg g = Ok (tt, g') /\ grid_ok g'.
Proof.
  intros Hgrid. eexists. split; [now apply run_iteration_eq|].
  destruct Hgrid as (H1 & H2 & H3 & H4). cbv zeta.
  unfold grid_ok. destruct (next_bitmap g) eqn:En; cbn;
    rewrite ?length_fmap_seq; repeat split; (done || congruence).
Qed.

Lemma run_iteration_tracking cfg g g' :
  grid_ok g -> run_iteration cfg g = Ok (tt, g') -> same_tracking g g'.
Proof.
  intros Hgrid E. rewrite run_iteration_eq in E by done.
  injection E as <-. cbv zeta. now destruct (next_bitmap g).
Qed.

Lemma run_loop_tracking cfg n :
  forall g, grid_ok g ->
  exists g', run_loop cfg n g = Ok (tt, g') /\ grid_ok g' /\ same_tracking g g'.
Proof.
  induction n as [|n IH]; intros g Hgrid; simpl.
  - exists g. split; [done|]. split; [done|]. repeat split.
  - destruct (grid_ok_run_iteration cfg g Hgrid) as (g1 & E1 & Hg1).
    pose proof (run_iteration_tracking cfg g g1 Hgrid E1) as (T1 & T2 & T3 & T4).
    destruct (IH g1 Hg1) as (g2 & E2 & Hg2 & (U1 & U2 & U3 & U4)).
    exists g2. rewrite (bind_ok _ _ _ _ _ E1).
    split; [done|]. split; [done|]. repeat split; congruence.
Qed.

(** C4 (defect).  One iteration of the loop of run computes the next
    generation, exchanges the roles of the two bitmaps without copying (the
    old current bitmap is kept, as the new next one) and presents the new
    current bitmap; but with AUTO_RESET_ON_STABLE enabled it neither counts
    the population, nor pushes to the history, nor increments generation,
    nor runs the stability check: the call on line 239 is commented out.
    The same holds after any number of iterations. *)
Theorem run_iteration_skips_stability_check cfg g :
  AUTO_RESET_ON_STABLE cfg = true ->
  grid_ok g -> presents_current g ->
  (exists g',
     run_iteration cfg g = Ok (tt, g') /\
     current_bitmap g' = next_bitmap g /\
     next_bitmap g' = current_bitmap g /\
     deref (next_bitmap g') g' = deref (current_bitmap g) g /\
     deref (current_bitmap g') g'
     = (next_level cfg (width g) (height g) (deref (current_bitmap g) g)
          (fade_buffer g) <$> seq 0 (width g * height g)) /\
     presents_current g' /\
     population_history g' = population_history g /\
     stable_count g' = stable_count g /\
     generation g' = generation g /\
     console g' = console g) /\
  (forall n, exists g',
     run_loop cfg n g = Ok (tt, g') /\
     population_history g' = population_history g /\
     stable_count g' = stable_count g /\
     generation g' = generation g /\
     console g' = console g).
Proof.
  intros _ Hgrid Hshow. split.
  - eexists. split; [now apply run_iteration_eq|].
    destruct Hgrid as (H1 & H2 & H3 & H4). cbv zeta.
    unfold presents_current in *.
    destruct (current_bitmap g) eqn:Ec, (next_bitmap g) eqn:En,
      (root_group g) eqn:Er; try done; cbn; rewrite ?Ec; done.
  - intros n. destruct (run_loop_tracking cfg n g Hgrid) as (g' & E & _ & T).
    exists g'. split; [done | exact T].
Qed.

Lemma run_iteration_skips_stability_check_witness :
  exists g',
    run_loop source_config 5 (init source_config 3 3) = Ok (tt, g') /\
    population_history g' = [0; 0; 0]%Z /\
    stable_count g' = 0%Z /\
    generation g' = 0%Z /\
    console g' = [].
Proof.
  apply (proj2 (run_iteration_skips_stability_check source_config
                  (init source_config 3 3) eq_refl
                  ltac:(solve_grid_ok) I) 5).
Defined.

(** ** [randomize] at the ends of the range *)

(** What [randomize] does and does not touch, and what it writes for the
    fractions 0 and 1. *)
Lemma randomize_effect cfg rand fraction threshold g :
  random_threshold fraction = Ok threshold ->
  grid_ok g ->
  exists g',
    randomize cfg rand fraction g = Ok (tt, g') /\
    current_bitmap g' = current_bitmap g /\
    next_bitmap g' = next_bitmap g /\
    fade_buffer g' = deref (current_bitmap g') g' /\
    deref (next_bitmap g') g' = deref (next_bitmap g) g /\
    (forall i, i < width g * height g ->
       fade_buffer g' !! i
       = Some (if (rand i <? threshold)%Z
               then (FADE_LEVELS cfg - 1)%Z else 0%Z)).
Proof.
  intros Ht Hgrid. eexists. split; [now apply (randomize_eq _ _ _ _ _ Ht)|]. cbv zeta.
  rewrite current_bitmap_with_buffers, next_bitmap_with_buffers,
    fade_buffer_with_buffers, deref_with_buffers.
  destruct Hgrid as (_ & _ & _ & Hne).
  rewrite deref_with_buffers_other by congruence.
  repeat split. intros i Hi. now rewrite lookup_fmap_seq.
Qed.

(** With fraction 0 every cell is dead, whatever the draws. *)
Lemma randomize_zero_all_dead cfg rand g :
  grid_ok g -> valid_rand rand ->
  exists g',
    randomize cfg rand 0%float g = Ok (tt, g') /\
    deref (current_bitmap g') g' = replicate (width g * height g) 0%Z /\
    fade_buffer g' = replicate (width g * height g) 0%Z /\
    deref (next_bitmap g') g' = deref (next_bitmap g) g.
Proof.
  intros Hgrid Hrand.
  destruct (randomize_effect cfg rand _ _ g random_threshold_0 Hgrid)
    as (g' & E & Hc & Hn & Hf & Hx & Hcells).
  exists g'. split; [done|].
  assert (Hfade : fade_buffer g' = replicate (width g * height g) 0%Z).
  { apply list_eq. intros i.
    destruct (decide (i < width g * height g)) as [Hi|Hi].
    - rewrite Hcells by done.
      destruct (Z.ltb_spec (rand i) 0); [specialize (Hrand i); lia|].
      now rewrite lookup_replicate_2.
    - rewrite (randomize_eq _ _ _ _ _ random_threshold_0) in E by done.
      injection E as <-. cbv zeta.
      rewrite fade_buffer_with_buffers.
      rewrite !lookup_ge_None_2; [done|..];
        rewrite ?length_replicate, ?length_fmap_seq; lia. }
  rewrite <- Hf, Hfade. done.
Qed.

(** C5 (defect).  randomize(1.0) does not make every cell alive for every
    outcome of the draws: the threshold is int(1.0 * 32767) = 32767 and the
    test is strict, so a cell whose draw of getrandbits(15) is 32767 is
    written 0 in the current bitmap and in the fade buffer. *)
Theorem randomize_full_fraction_leaves_dead_cell cfg rand g i :
  valid_config cfg -> grid_ok g -> valid_rand rand ->
  i < width g * height g -> rand i = 32767%Z ->
  exists g',
    randomize cfg rand 1%float g = Ok (tt, g') /\
    deref (current_bitmap g') g' !! i = Some 0%Z /\
    fade_buffer g' !! i = Some 0%Z /\
    0%Z <> (FADE_LEVELS cfg - 1)%Z.
Proof.
  intros (HF & _) Hgrid Hrand Hi Hri.
  destruct (randomize_effect cfg rand _ _ g random_threshold_1 Hgrid)
    as (g' & E & Hc & Hn & Hf & Hx & Hcells).
  exists g'. split; [done|].
  rewrite <- Hf, (Hcells i Hi), Hri.
  repeat split; (done || lia).
Qed.

Lemma randomize_full_fraction_leaves_dead_cell_witness :
  exists g',
    randomize source_config (fun _ => 32767%Z) 1%float (init source_config 1 1)
    = Ok (tt, g') /\
    deref (current_bitmap g') g' !! 0 = Some 0%Z /\
    fade_buffer g' !! 0 = Some 0%Z /\
    0%Z <> 7%Z.
Proof.
  apply (randomize_full_fraction_leaves_dead_cell source_config (fun _ => 32767%Z)
           (init source_config 1 1) 0).
  - solve_valid_config.
  - solve_grid_ok.
  - intros i. lia.
  - simpl; lia.
  - reflexivity.
Defined.

(** ** Bounds *)

(** The grid reads and writes of one pass, of [randomize] and of
    [count_population] stay in range. *)
Lemma grid_accesses_in_bounds cfg rand fraction threshold g :
  random_threshold fraction = Ok threshold ->
  grid_ok g ->
  (exists g', apply_life_rule_with_fade cfg g = Ok (tt, g')) /\
  (exists g', randomize cfg rand fraction g = Ok (tt, g')) /\
  (exists n, count_population cfg g = Ok (n, g)).
Proof.
  intros Ht Hgrid. split; [|split]; eexists.
  - now apply apply_life_rule_with_fade_eq.
  - now apply (randomize_eq _ _ _ _ _ Ht).
  - now apply count_population_eq.
Qed.

(** C8 (defect).  With HISTORY_SIZE = 1, which the specification accepts,
    check_stability raises IndexError: the shift loop is empty, the write
    of history[0] succeeds, and the static check then reads history[1],
    one past the end of the window. *)
Theorem check_stability_window_of_one_raises cfg current_pop g :
  HISTORY_SIZE cfg = 1 ->
  length (population_history g) = HISTORY_SIZE cfg ->
  check_stability cfg current_pop g = Raise IndexError.
Proof.
  intros H1 Hlen. rewrite check_stability_eq by lia.
  apply stability_checks_raise. rewrite H1. reflexivity.
Qed.

Lemma check_stability_window_of_one_raises_witness :
  valid_config short_history_config /\
  check_stability short_history_config 0 (init short_history_config 3 3)
  = Raise IndexError /\
  handle_stable_state short_history_config (fun _ => 0%Z)
    (init short_history_config 3 3)
  = Raise IndexError.
Proof.
  split; [solve_valid_config|]. split.
  - apply (check_stability_window_of_one_raises short_history_config 0
             (init short_history_config 3 3)); reflexivity.
  - reflexivity.
Defined.

(** * Further properties of the code *)

(** ** What a pass touches *)

Lemma fmap_seq_cell_at (f : Z -> Z) (l : list Z) n :
  length l = n -> (fun i => f (cell_at l i)) <$> seq 0 n = f <$> l.
Proof.
  intros Hn. apply list_eq. intros i.
  destruct (decide (i < n)) as [Hi|Hi].
  - rewrite lookup_fmap_seq by done.
    rewrite list_lookup_fmap, (cell_at_lookup l i) by lia. done.
  - rewrite !lookup_ge_None_2; [done|..]; rewrite ?length_fmap, ?length_seq; lia.
Qed.

(** X1. One pass of apply_life_rule_with_fade writes the next bitmap and
    the fade buffer and nothing else: the current bitmap, the dimensions,
    the two references, the displayed group and the tracking state are as
    before; and the pass leaves the same levels in the next bitmap and in
    the fade buffer. *)
Theorem life_pass_frame cfg g :
  grid_ok g ->
  exists g',
    apply_life_rule_with_fade cfg g = Ok (tt, g') /\
    deref (current_bitmap g) g' = deref (current_bitmap g) g /\
    deref (next_bitmap g) g' = fade_buffer g' /\
    length (fade_buffer g') = width g * height g /\
    width g' = width g /\ height g' = height g /\
    current_bitmap g' = current_bitmap g /\ next_bitmap g' = next_bitmap g /\
    root_group g' = root_group g /\ auto_refresh g' = auto_refresh g /\
    same_tracking g g'.
Proof.
  intros Hgrid. eexists. split; [now apply apply_life_rule_with_fade_eq|].
  destruct Hgrid as (_ & _ & _ & Hne). cbv zeta.
  rewrite deref_with_buffers_other by done.
  rewrite deref_with_buffers, fade_buffer_with_buffers, length_fmap_seq.
  rewrite current_bitmap_with_buffers, next_bitmap_with_buffers.
  unfold same_tracking. destruct (next_bitmap g); repeat split.
Qed.

Lemma life_pass_frame_witness :
  exists g',
    apply_life_rule_with_fade source_config lonely_grid = Ok (tt, g') /\
    deref (current_bitmap lonely_grid) g'
    = deref (current_bitmap lonely_grid) lonely_grid /\
    deref (next_bitmap lonely_grid) g' = fade_buffer g' /\
    length (fade_buffer g') = width lonely_grid * height lonely_grid /\
    width g' = width lonely_grid /\ height g' = height lonely_grid /\
    current_bitmap g' = current_bitmap lonely_grid /\
    next_bitmap g' = next_bitmap lonely_grid /\
    root_group g' = root_group lonely_grid /\
    auto_refresh g' = auto_refresh lonely_grid /\
    same_tracking lonely_grid g'.
Proof.
  apply (life_pass_frame source_config lonely_grid). solve_grid_ok.
Defined.

(** X2. On a grid with a zero dimension the loops of
    apply_life_rule_with_fade, randomize and count_population have no
    cell to visit: each returns without raising and leaves the object as
    it is, and the population is 0.  (randomize still computes its
    threshold first: for a fraction whose product with 32767 is a NaN or
    an infinity it raises at line 78, as on any grid.) *)
Theorem empty_grid_is_inert cfg rand fraction g :
  grid_ok g -> width g * height g = 0 ->
  apply_life_rule_with_fade cfg g = Ok (tt, g) /\
  match random_threshold fraction with
  | Ok _ => randomize cfg rand fraction g = Ok (tt, g)
  | Raise e => randomize cfg rand fraction g = Raise e
  end /\
  count_population cfg g = Ok (0%Z, g).
Proof.
  intros Hgrid H0. pose proof Hgrid as (H1 & H2 & H3 & Hne).
  rewrite H0 in H1, H2, H3.
  apply nil_length_inv in H1, H2, H3.
  rewrite apply_life_rule_with_fade_eq, count_population_eq by done.
  destruct (random_threshold fraction) as [threshold|e] eqn:Ht.
  - rewrite (randomize_eq _ _ _ _ _ Ht) by done.
    cbv zeta. rewrite H0. simpl seq. simpl fmap.
    destruct g as [w h l1 l2 rg ar cb nb fb ph sc gn co].
    simpl in *. subst l1 l2 fb.
    destruct cb, nb; done.
  - rewrite (randomize_raise _ _ _ _ _ Ht).
    cbv zeta. rewrite H0. simpl seq. simpl fmap.
    destruct g as [w h l1 l2 rg ar cb nb fb ph sc gn co].
    simpl in *. subst l1 l2 fb.
    destruct cb, nb; done.
Qed.

Lemma empty_grid_is_inert_witness :
  apply_life_rule_with_fade source_config (init source_config 0 5)
  = Ok (tt, init source_config 0 5) /\
  randomize source_config (fun _ => 0%Z) 1%float (init source_config 0 5)
  = Ok (tt, init source_config 0 5) /\
  count_population source_config (init source_config 0 5)
  = Ok (0%Z, init source_config 0 5).
Proof.
  apply (empty_grid_is_inert source_config (fun _ => 0%Z) 1%float
           (init source_config 0 5)).
  - solve_grid_ok.
  - reflexivity.
Defined.

(** X3. On a 1x1 grid the wrap makes the single cell all eight of its own
    neighbours, so its count is 0 or 8 and the cell is never alive after a
    pass, whatever it was before. *)
Theorem single_cell_never_lives cfg g :
  valid_config cfg -> wf cfg g -> width g = 1 -> height g = 1 ->
  exists g' v,
    apply_life_rule_with_fade cfg g = Ok (tt, g') /\
    deref (next_bitmap g) g' = [v] /\
    v <> max_fade cfg.
Proof.
  intros Hc [Hgrid (L1 & L2 & L3)] Hw Hh.
  pose proof Hgrid as (H1 & H2 & H3 & Hne).
  eexists. eexists. split; [now apply apply_life_rule_with_fade_eq|].
  cbv zeta. rewrite deref_with_buffers, Hw, Hh. simpl seq. simpl fmap.
  split; [reflexivity|].
  unfold next_level. simpl Nat.modulo. simpl Nat.div.
  assert (Hl : lives cfg 1 1 (deref (current_bitmap g) g) 0 0 = false).
  { unfold lives, neighbors_at, prev_wrap, next_wrap, bump. simpl.
    destruct (cell_at (deref (current_bitmap g) g) 0 =? max_fade cfg)%Z; reflexivity. }
  rewrite Hl. apply decay_below_max; [done|].
  apply cell_at_in_levels; [done | lia].
Qed.

Lemma single_cell_never_lives_witness :
  exists g' v,
    apply_life_rule_with_fade source_config
      (set_fade_buffer [7%Z] (set_b1 [7%Z] (init source_config 1 1))) = Ok (tt, g') /\
    deref B2 g' = [v] /\
    v <> 7%Z.
Proof.
  apply (single_cell_never_lives source_config
           (set_fade_buffer [7%Z] (set_b1 [7%Z] (init source_config 1 1)))).
  - solve_valid_config.
  - solve_wf.
  - reflexivity.
  - reflexivity.
Defined.

(** ** A grid without live cells *)

Lemma no_alive_cell_at cfg (l : list Z) i :
  valid_config cfg -> no_alive cfg l -> cell_at l i <> max_fade cfg.
Proof.
  intros (HF & _) Hl. unfold cell_at.
  destruct (l !! i) as [v|] eqn:E; simpl.
  - unfold no_alive in Hl. rewrite Forall_lookup in Hl. exact (Hl i v E).
  - unfold max_fade. lia.
Qed.

Lemma lives_no_alive cfg w h cur x y :
  valid_config cfg -> no_alive cfg cur -> lives cfg w h cur x y = false.
Proof.
  intros Hc Hl.
  assert (Hb : forall idx n, bump cfg cur idx n = n).
  { intros idx n. unfold bump.
    destruct (Z.eqb_spec (cell_at cur idx) (max_fade cfg)) as [E|E]; [|done].
    now apply no_alive_cell_at in E. }
  unfold lives, neighbors_at. now rewrite !Hb.
Qed.

Lemma decay_iter cfg n f :
  valid_config cfg -> (0 <= f)%Z ->
  Nat.iter n (decay cfg) f = Z.max 0 (f - Z.of_nat n * FADE_DECAY_RATE cfg).
Proof.
  intros Hc Hf. pose proof Hc as (_ & HR & _).
  induction n as [|n IH]; [simpl; lia|].
  rewrite Nat.iter_succ, IH, decay_max by (done || lia). nia.
Qed.

Lemma no_alive_decay cfg (l : list Z) :
  valid_config cfg -> Forall (in_levels cfg) l -> no_alive cfg (decay cfg <$> l).
Proof.
  intros Hc Hl. unfold no_alive. rewrite Forall_fmap.
  eapply Forall_impl; [exact Hl|]. intros v Hv. now apply decay_below_max.
Qed.

Lemma alive_cells_no_alive cfg (l : list Z) :
  no_alive cfg l -> alive_cells cfg l = 0%Z.
Proof.
  induction 1 as [|v l Hv _ IH]; [done|].
  rewrite alive_cells_cons, IH. unfold max_fade in Hv.
  destruct (Z.eqb_spec v (FADE_LEVELS cfg - 1)); [done | lia].
Qed.

(** One iteration on a grid without live cells. *)
Lemma run_iteration_no_alive cfg g :
  valid_config cfg -> wf cfg g -> no_alive cfg (deref (current_bitmap g) g) ->
  exists g',
    run_iteration cfg g = Ok (tt, g') /\ wf cfg g' /\
    fade_buffer g' = decay cfg <$> fade_buffer g /\
    deref (current_bitmap g') g' = fade_buffer g' /\
    no_alive cfg (deref (current_bitmap g') g').
Proof.
  intros Hc Hwf Hdead.
  destruct (wf_run_iteration cfg g Hc Hwf) as (g' & E & Hwf').
  exists g'. split; [done|]. split; [done|].
  pose proof Hwf as [Hgrid (L1 & L2 & L3)].
  pose proof Hgrid as (H1 & H2 & H3 & Hne).
  rewrite run_iteration_eq in E by done. injection E as <-. cbv zeta.
  assert (Hnl : next_level cfg (width g) (height g) (deref (current_bitmap g) g)
                  (fade_buffer g) <$> seq 0 (width g * height g)
                = decay cfg <$> fade_buffer g).
  { rewrite <- (fmap_seq_cell_at (decay cfg) (fade_buffer g) _ H3).
    apply list_fmap_ext. intros i k _. unfold next_level.
    now rewrite lives_no_alive. }
  rewrite Hnl.
  assert (Hf : forall r rg cb nb, fade_buffer (set_root_group rg (set_bitmap_refs cb nb
                 (with_buffers r (decay cfg <$> fade_buffer g)
                    (decay cfg <$> fade_buffer g) g)))
               = decay cfg <$> fade_buffer g) by (intros []; reflexivity).
  assert (Hd : forall rg nb, deref (next_bitmap g) (set_root_group rg
                 (set_bitmap_refs (next_bitmap g) nb
                    (with_buffers (next_bitmap g) (decay cfg <$> fade_buffer g)
                       (decay cfg <$> fade_buffer g) g)))
               = decay cfg <$> fade_buffer g)
    by (intros; destruct (next_bitmap g); reflexivity).
  rewrite Hf. cbn [current_bitmap set_root_group set_bitmap_refs].
  rewrite Hd. repeat split. now apply no_alive_decay.
Qed.

Lemma run_loop_no_alive cfg n :
  valid_config cfg ->
  forall g, wf cfg g -> no_alive cfg (deref (current_bitmap g) g) ->
  exists g',
    run_loop cfg n g = Ok (tt, g') /\
    fade_buffer g' = Nat.iter n (decay cfg) <$> fade_buffer g /\
    (1 <= n -> deref (current_bitmap g') g' = fade_buffer g') /\
    no_alive cfg (deref (current_bitmap g') g').
Proof.
  intros Hc. induction n as [|n IH]; intros g Hwf Hdead.
  - exists g. simpl. rewrite list_fmap_id. repeat split; [lia | done].
  - destruct (run_iteration_no_alive cfg g Hc Hwf Hdead)
      as (g1 & E1 & Hwf1 & Hf1 & Hc1 & Hd1).
    destruct (IH g1 Hwf1 Hd1) as (g2 & E2 & Hf2 & Hc2 & Hd2).
    exists g2. simpl run_loop. rewrite (bind_ok _ _ _ _ _ E1).
    split; [done|]. split; [|split; [|done]].
    + rewrite Hf2, Hf1, <- list_fmap_compose. apply list_fmap_ext.
      intros i f _. unfold compose. symmetry. apply Nat.iter_succ_r.
    + intros _. destruct n as [|n]; [|apply Hc2; lia].
      simpl in E2. injection E2 as <-. done.
Qed.

(** X4. A grid with no live cell stays without one: after n iterations of
    the loop body every cell of the fade buffer holds
    max(0, old - n * FADE_DECAY_RATE), the current bitmap holds the same
    levels (from the first iteration on) and the population is 0; once
    n * FADE_DECAY_RATE reaches FADE_LEVELS-1 the trail is gone and every
    cell is 0. *)
Theorem dead_grid_fades_out cfg g n :
  valid_config cfg -> wf cfg g -> no_alive cfg (deref (current_bitmap g) g) ->
  exists g',
    run_loop cfg n g = Ok (tt, g') /\
    fade_buffer g'
    = (fun f => Z.max 0 (f - Z.of_nat n * FADE_DECAY_RATE cfg)) <$> fade_buffer g /\
    (1 <= n -> deref (current_bitmap g') g' = fade_buffer g') /\
    count_population cfg g' = Ok (0%Z, g') /\
    ((FADE_LEVELS cfg - 1 <= Z.of_nat n * FADE_DECAY_RATE cfg)%Z ->
     fade_buffer g' = replicate (width g * height g) 0%Z).
Proof.
  intros Hc Hwf Hdead.
  destruct (run_loop_no_alive cfg n Hc g Hwf Hdead) as (g' & E & Hf & Hcur & Hd).
  destruct (wf_run_loop cfg n Hc g Hwf) as (g'' & E' & Hwf').
  rewrite E in E'. injection E' as <-.
  pose proof Hwf as [Hgrid (L1 & L2 & L3)].
  pose proof Hgrid as (H1 & H2 & H3 & Hne).
  assert (Hform : fade_buffer g'
    = (fun f => Z.max 0 (f - Z.of_nat n * FADE_DECAY_RATE cfg)) <$> fade_buffer g).
  { rewrite Hf. apply Forall_fmap_ext_1.
    eapply Forall_impl; [exact L3|]. intros f Hv. simpl.
    apply decay_iter; [done|]. unfold in_levels in Hv. lia. }
  exists g'. split; [done|]. split; [done|]. split; [done|]. split.
  - rewrite count_population_eq by apply Hwf'.
    now rewrite alive_cells_no_alive.
  - intros Hn. rewrite Hform. apply list_eq. intros i.
    rewrite list_lookup_fmap.
    destruct (decide (i < width g * height g)) as [Hi|Hi].
    + rewrite lookup_replicate_2 by done.
      rewrite (cell_at_lookup (fade_buffer g) i) by lia. simpl. f_equal.
      pose proof (cell_at_in_levels cfg (fade_buffer g) i L3 ltac:(lia)) as Hv.
      unfold in_levels in Hv. lia.
    + rewrite !lookup_ge_None_2; [done|..]; rewrite ?length_replicate; lia.
Qed.

Lemma dead_grid_fades_out_witness :
  exists g',
    run_loop source_config 3
      (set_fade_buffer [7; 2; 0; 5]%Z (set_b1 [6; 2; 0; 5]%Z (init source_config 2 2)))
    = Ok (tt, g') /\
    fade_buffer g' = [4; 0; 0; 2]%Z /\
    (1 <= 3 -> deref (current_bitmap g') g' = fade_buffer g') /\
    count_population source_config g' = Ok (0%Z, g') /\
    ((8 - 1 <= Z.of_nat 3 * 1)%Z -> fade_buffer g' = replicate (2 * 2) 0%Z).
Proof.
  apply (dead_grid_fades_out source_config
           (set_fade_buffer [7; 2; 0; 5]%Z (set_b1 [6; 2; 0; 5]%Z (init source_config 2 2)))
           3).
  - solve_valid_config.
  - solve_wf.
  - unfold no_alive. simpl. repeat (apply Forall_cons; split; [discriminate|]).
    apply Forall_nil_2.
Defined.

(** ** Life and trail *)

Lemma alive_pattern_cell cfg (l1 l2 : list Z) i :
  alive_pattern cfg l1 = alive_pattern cfg l2 ->
  (cell_at l1 i =? max_fade cfg)%Z = (cell_at l2 i =? max_fade cfg)%Z.
Proof.
  intros H. unfold alive_pattern in H.
  assert (Hi : (is_alive cfg <$> l1) !! i = (is_alive cfg <$> l2) !! i) by now rewrite H.
  rewrite !list_lookup_fmap in Hi. unfold cell_at.
  destruct (l1 !! i), (l2 !! i); simpl in *; try discriminate; [|done].
  injection Hi as Hi. exact Hi.
Qed.

Lemma lives_alive_pattern cfg w h (cur1 cur2 : list Z) x y :
  alive_pattern cfg cur1 = alive_pattern cfg cur2 ->
  lives cfg w h cur1 x y = lives cfg w h cur2 x y.
Proof.
  intros H. unfold lives, neighbors_at, bump.
  now rewrite !(alive_pattern_cell cfg cur1 cur2 _ H).
Qed.

Lemma alive_pattern_next cfg w h (cur fade : list Z) n :
  valid_config cfg -> Forall (in_levels cfg) fade -> n <= length fade ->
  alive_pattern cfg (next_level cfg w h cur fade <$> seq 0 n)
  = (fun i => lives cfg w h cur (i mod w) (i / w)) <$> seq 0 n.
Proof.
  intros Hc Hf Hn. unfold alive_pattern. rewrite <- list_fmap_compose.
  apply Forall_fmap_ext_1, Forall_forall. intros i Hi.
  apply elem_of_seq in Hi. unfold compose, next_level, is_alive.
  destruct (lives cfg w h cur (i mod w) (i / w)).
  - apply Z.eqb_refl.
  - apply Z.eqb_neq. apply (decay_below_max cfg); [done|].
    apply cell_at_in_levels; [done | lia].
Qed.

(** X5. The trail has no effect on life and death: two well-formed grids
    of the same dimensions whose current bitmaps have the same cells at the
    max level have, after one pass each, next bitmaps with the same cells
    at the max level, whatever the faded levels in either. *)
Theorem life_ignores_trail cfg g1 g2 :
  valid_config cfg -> wf cfg g1 -> wf cfg g2 ->
  width g1 = width g2 -> height g1 = height g2 ->
  alive_pattern cfg (deref (current_bitmap g1) g1)
  = alive_pattern cfg (deref (current_bitmap g2) g2) ->
  exists g1' g2',
    apply_life_rule_with_fade cfg g1 = Ok (tt, g1') /\
    apply_life_rule_with_fade cfg g2 = Ok (tt, g2') /\
    alive_pattern cfg (deref (next_bitmap g1) g1')
    = alive_pattern cfg (deref (next_bitmap g2) g2').
Proof.
  intros Hc [Hg1 (_ & _ & F1)] [Hg2 (_ & _ & F2)] Hw Hh Hpat.
  eexists. eexists.
  split; [now apply apply_life_rule_with_fade_eq|].
  split; [now apply apply_life_rule_with_fade_eq|].
  cbv zeta. rewrite !deref_with_buffers.
  destruct Hg1 as (_ & _ & E1 & _), Hg2 as (_ & _ & E2 & _).
  rewrite !alive_pattern_next by (done || lia).
  rewrite Hw, Hh. apply list_fmap_ext. intros i k _.
  now apply lives_alive_pattern.
Qed.

Lemma life_ignores_trail_witness :
  exists g1' g2',
    apply_life_rule_with_fade source_config
      (set_b1 [7; 7; 0; 7; 0; 0; 0; 0; 0]%Z (init source_config 3 3)) = Ok (tt, g1') /\
    apply_life_rule_with_fade source_config
      (set_fade_buffer [7; 7; 3; 7; 6; 1; 2; 0; 5]%Z
         (set_b1 [7; 7; 3; 7; 6; 1; 2; 0; 5]%Z (init source_config 3 3)))
    = Ok (tt, g2') /\
    alive_pattern source_config (deref B2 g1')
    = alive_pattern source_config (deref B2 g2').
Proof.
  apply (life_ignores_trail source_config
           (set_b1 [7; 7; 0; 7; 0; 0; 0; 0; 0]%Z (init source_config 3 3))
           (set_fade_buffer [7; 7; 3; 7; 6; 1; 2; 0; 5]%Z
              (set_b1 [7; 7; 3; 7; 6; 1; 2; 0; 5]%Z (init source_config 3 3)))).
  - solve_valid_config.
  - solve_wf.
  - solve_wf.
  - reflexivity.
  - reflexivity.
  - reflexivity.
Defined.

(** ** The double buffer *)

Lemma run_iteration_roles cfg g :
  grid_ok g ->
  exists g',
    run_iteration cfg g = Ok (tt, g') /\ grid_ok g' /\
    current_bitmap g' = next_bitmap g /\
    next_bitmap g' = current_bitmap g /\
    root_group g' = (if decide (root_group g = G1) then G2 else G1) /\
    fade_buffer g' = deref (current_bitmap g') g' /\
    deref (next_bitmap g') g' = deref (current_bitmap g) g.
Proof.
  intros Hgrid.
  destruct (grid_ok_run_iteration cfg g Hgrid) as (g' & E & Hg').
  exists g'. split; [done|]. split; [done|].
  rewrite run_iteration_eq in E by done. injection E as <-. cbv zeta.
  destruct Hgrid as (_ & _ & _ & Hne).
  destruct (current_bitmap g) eqn:Ec, (next_bitmap g) eqn:En; done.
Qed.

Lemma presents_current_flip g g' :
  presents_current g -> current_bitmap g <> next_bitmap g ->
  current_bitmap g' = next_bitmap g ->
  root_group g' = (if decide (root_group g = G1) then G2 else G1) ->
  presents_current g'.
Proof.
  unfold presents_current. intros Hp Hne -> ->.
  destruct (root_group g), (current_bitmap g), (next_bitmap g); done.
Qed.

Lemma run_loop_display cfg n :
  forall g, grid_ok g -> presents_current g ->
  fade_buffer g = deref (current_bitmap g) g ->
  exists g',
    run_loop cfg n g = Ok (tt, g') /\ grid_ok g' /\ presents_current g' /\
    fade_buffer g' = deref (current_bitmap g') g'.
Proof.
  induction n as [|n IH]; intros g Hgrid Hp Hf.
  - now exists g.
  - destruct (run_iteration_roles cfg g Hgrid) as (g1 & E1 & Hg1 & Hc & Hn & Hr & Hf1 & _).
    simpl. rewrite (bind_ok _ _ _ _ _ E1).
    apply IH; [done | | done].
    eapply presents_current_flip; [exact Hp | apply Hgrid | done | done].
Qed.

(** X6. In every state the program reaches - after the first randomize and
    after any number of iterations of the loop - the display shows the
    current bitmap, the fade buffer holds the same levels as the current
    bitmap, and the three buffers have width*height cells. *)
Theorem run_keeps_display_and_fade_in_step cfg rand n w h :
  exists g',
    run cfg rand n (init cfg w h) = Ok (tt, g') /\
    presents_current g' /\
    fade_buffer g' = deref (current_bitmap g') g' /\
    grid_ok g'.
Proof.
  assert (Hgrid : grid_ok (set_auto_refresh true (init cfg w h))).
  { unfold grid_ok. simpl. rewrite !length_replicate. repeat split; done. }
  destruct (randomize_effect cfg rand _ _ _ random_threshold_default Hgrid)
    as (g0 & E0 & Hc0 & Hn0 & Hf0 & Hx0 & _).
  assert (Hg0 : grid_ok g0).
  { rewrite (randomize_eq _ _ _ _ _ random_threshold_default) in E0 by done.
    injection E0 as <-. cbv zeta.
    unfold grid_ok. simpl. rewrite !length_fmap_seq, !length_replicate.
    repeat split; done. }
  assert (Hp0 : presents_current g0).
  { rewrite (randomize_eq _ _ _ _ _ random_threshold_default) in E0 by done.
    injection E0 as <-. exact I. }
  destruct (run_loop_display cfg n g0 Hg0 Hp0 Hf0) as (g' & E & Hg & Hp & Hf).
  exists g'. unfold run, run_prologue.
  erewrite bind_ok.
  2:{ erewrite bind_ok; [|reflexivity]. exact E0. }
  repeat split; try done; apply Hg.
Qed.

(** X7. Two iterations of the loop body put the roles back: the current
    and next references and the displayed group are what they were, and
    after one iteration the bitmap that was current is kept, as the next
    one. *)
Theorem two_iterations_restore_roles cfg g :
  grid_ok g ->
  exists g1 g2,
    run_iteration cfg g = Ok (tt, g1) /\
    run_iteration cfg g1 = Ok (tt, g2) /\
    deref (next_bitmap g1) g1 = deref (current_bitmap g) g /\
    current_bitmap g1 = next_bitmap g /\
    current_bitmap g2 = current_bitmap g /\
    next_bitmap g2 = next_bitmap g /\
    root_group g2 = root_group g.
Proof.
  intros Hgrid.
  destruct (run_iteration_roles cfg g Hgrid) as (g1 & E1 & Hg1 & Hc1 & Hn1 & Hr1 & _ & Hk1).
  destruct (run_iteration_roles cfg g1 Hg1) as (g2 & E2 & Hg2 & Hc2 & Hn2 & Hr2 & _).
  exists g1, g2. repeat split; try congruence.
  rewrite Hr2, Hr1. destruct (root_group g); reflexivity.
Qed.

Lemma two_iterations_restore_roles_witness :
  exists g1 g2,
    run_iteration source_config lonely_grid = Ok (tt, g1) /\
    run_iteration source_config g1 = Ok (tt, g2) /\
    deref (next_bitmap g1) g1 = deref (current_bitmap lonely_grid) lonely_grid /\
    current_bitmap g1 = next_bitmap lonely_grid /\
    current_bitmap g2 = current_bitmap lonely_grid /\
    next_bitmap g2 = next_bitmap lonely_grid /\
    root_group g2 = root_group lonely_grid.
Proof.
  apply (two_iterations_restore_roles source_config lonely_grid). solve_grid_ok.
Defined.

(** ** [randomize] and the population *)

(** X8. randomize overwrites the whole current bitmap and fade buffer:
    when threshold is the integer int(fraction * 32767) that line 78
    computes from the float fraction, cell i is FADE_LEVELS-1 when the i-th
    draw is below threshold and 0 otherwise, whatever the buffers held; the
    fade buffer equals the current bitmap afterwards; the next bitmap, the
    references, the displayed group and the tracking state are untouched. *)
Theorem randomize_overwrites cfg rand fraction threshold g :
  random_threshold fraction = Ok threshold ->
  grid_ok g ->
  exists g',
    randomize cfg rand fraction g = Ok (tt, g') /\
    deref (current_bitmap g) g'
    = (fun i => if (rand i <? threshold)%Z
                then (FADE_LEVELS cfg - 1)%Z else 0%Z) <$> seq 0 (width g * height g) /\
    fade_buffer g' = deref (current_bitmap g) g' /\
    deref (next_bitmap g) g' = deref (next_bitmap g) g /\
    current_bitmap g' = current_bitmap g /\ next_bitmap g' = next_bitmap g /\
    root_group g' = root_group g /\
    same_tracking g g'.
Proof.
  intros Ht Hgrid. eexists. split; [now apply (randomize_eq _ _ _ _ _ Ht)|]. cbv zeta.
  destruct Hgrid as (_ & _ & _ & Hne).
  rewrite deref_with_buffers, fade_buffer_with_buffers.
  rewrite deref_with_buffers_other by congruence.
  rewrite current_bitmap_with_buffers, next_bitmap_with_buffers.
  unfold same_tracking. destruct (current_bitmap g); repeat split.
Qed.

(** The float 1/32767 is a fraction at which the rounding of the product
    matters: the exact product is just below 1, the binary64 product is
    1.0, and the threshold is 1, so a draw of 0 makes its cell alive. *)
Lemma randomize_overwrites_witness :
  exists g',
    randomize source_config (fun i => Z.of_nat i * 4000)%Z (1 / 32767)%float
      lonely_grid_other
    = Ok (tt, g') /\
    deref B2 g' = [7; 0; 0; 0; 0; 0; 0; 0; 0]%Z /\
    fade_buffer g' = deref B2 g' /\
    deref B1 g' = [3; 1; 4; 1; 5; 2; 6; 5; 3]%Z /\
    current_bitmap g' = B2 /\ next_bitmap g' = B1 /\
    root_group g' = G2 /\
    same_tracking lonely_grid_other g'.
Proof.
  apply (randomize_overwrites source_config (fun i => Z.of_nat i * 4000)%Z
           (1 / 32767)%float 1%Z lonely_grid_other).
  - reflexivity.
  - solve_grid_ok.
Defined.

(** X9. randomize(0.0) leaves every cell of the current bitmap and of the
    fade buffer at 0, for every outcome of the draws, and does not touch
    the next bitmap. *)
Theorem randomize_zero_fraction_all_dead cfg rand g :
  grid_ok g -> valid_rand rand ->
  exists g',
    randomize cfg rand 0%float g = Ok (tt, g') /\
    deref (current_bitmap g) g' = replicate (width g * height g) 0%Z /\
    fade_buffer g' = replicate (width g * height g) 0%Z /\
    deref (next_bitmap g) g' = deref (next_bitmap g) g.
Proof.
  intros Hgrid Hrand.
  destruct (randomize_zero_all_dead cfg rand g Hgrid Hrand) as (g' & E & H1 & H2 & H3).
  destruct (randomize_effect cfg rand _ _ g random_threshold_0 Hgrid)
    as (g'' & E' & Hc & Hn & _).
  rewrite E in E'. injection E' as <-.
  exists g'. rewrite <- Hc at 1. rewrite <- Hn at 1. done.
Qed.

Lemma randomize_zero_fraction_all_dead_witness :
  exists g',
    randomize source_config (fun i => if Nat.even i then 0 else 32767)%Z 0%float
      lonely_grid
    = Ok (tt, g') /\
    deref B1 g' = replicate 9 0%Z /\
    fade_buffer g' = replicate 9 0%Z /\
    deref B2 g' = deref B2 lonely_grid.
Proof.
  apply (randomize_zero_fraction_all_dead source_config
           (fun i => if Nat.even i then 0 else 32767)%Z lonely_grid).
  - solve_grid_ok.
  - intros i. destruct (Nat.even i); lia.
Defined.

(** X10. randomize(1.0) makes alive exactly the cells whose draw is not
    32767: a cell is FADE_LEVELS-1 unless getrandbits(15) returned its
    largest value, in which case it is 0. *)
Theorem randomize_full_fraction_cells cfg rand g :
  grid_ok g -> valid_rand rand ->
  exists g',
    randomize cfg rand 1%float g = Ok (tt, g') /\
    deref (current_bitmap g) g'
    = (fun i => if (rand i =? 32767)%Z then 0%Z else (FADE_LEVELS cfg - 1)%Z)
      <$> seq 0 (width g * height g).
Proof.
  intros Hgrid Hrand. eexists.
  split; [now apply (randomize_eq _ _ _ _ _ random_threshold_1)|]. cbv zeta.
  rewrite deref_with_buffers. apply list_fmap_ext. intros k i _.
  unfold random_level.
  specialize (Hrand i).
  destruct (Z.ltb_spec (rand i) 32767), (Z.eqb_spec (rand i) 32767); (done || lia).
Qed.

Lemma randomize_full_fraction_cells_witness :
  exists g',
    randomize source_config (fun i => if Nat.even i then 32767 else 12)%Z 1%float
      (init source_config 2 2)
    = Ok (tt, g') /\
    deref B1 g' = [0; 7; 0; 7]%Z.
Proof.
  apply (randomize_full_fraction_cells source_config
           (fun i => if Nat.even i then 32767 else 12)%Z (init source_config 2 2)).
  - solve_grid_ok.
  - intros i. destruct (Nat.even i); lia.
Defined.

Lemma alive_cells_fmap cfg (F : nat -> Z) (l : list nat) :
  alive_cells cfg (F <$> l)
  = Z.of_nat (length (filter (fun i => F i = (FADE_LEVELS cfg - 1)%Z) l)).
Proof.
  induction l as [|i l IH]; [done|].
  rewrite fmap_cons, alive_cells_cons, IH, filter_cons.
  destruct (Z.eqb_spec (F i) (FADE_LEVELS cfg - 1)).
  - rewrite decide_True by done. cbn [length]. lia.
  - rewrite decide_False by done. lia.
Qed.

(** X12. After randomize, count_population returns the number of cells
    whose draw was below the threshold, the integer int(fraction * 32767)
    that line 78 computes from the float fraction. *)
Theorem population_after_randomize cfg rand fraction threshold g :
  valid_config cfg -> random_threshold fraction = Ok threshold -> grid_ok g ->
  exists g',
    randomize cfg rand fraction g = Ok (tt, g') /\
    count_population cfg g'
    = Ok (Z.of_nat (length (filter (fun i => (rand i < threshold)%Z)
                              (seq 0 (width g * height g)))), g').
Proof.
  intros (HF & _) Ht Hgrid.
  destruct (randomize_effect cfg rand fraction threshold g Ht Hgrid)
    as (g' & E & Hc & Hn & Hf & _).
  exists g'. split; [done|].
  assert (Hg' : grid_ok g').
  { rewrite (randomize_eq _ _ _ _ _ Ht) in E by done. injection E as <-. cbv zeta.
    destruct Hgrid as (H1 & H2 & H3 & Hne). unfold grid_ok.
    rewrite current_bitmap_with_buffers, next_bitmap_with_buffers.
    destruct (current_bitmap g); simpl; rewrite !length_fmap_seq; done. }
  rewrite count_population_eq by done. do 2 f_equal.
  rewrite (randomize_eq _ _ _ _ _ Ht) in E by done. injection E as <-. cbv zeta.
  rewrite current_bitmap_with_buffers, deref_with_buffers.
  rewrite alive_cells_fmap. do 2 f_equal.
  apply list_filter_iff. intros i. unfold random_level.
  destruct (Z.ltb_spec (rand i) threshold); split; (done || lia).
Qed.

(** At the float 1/32767 the threshold is 1: of the draws 0, 4000, ...
    only the first is below it. *)
Lemma population_after_randomize_witness :
  exists g',
    randomize source_config (fun i => Z.of_nat i * 4000)%Z (1 / 32767)%float
      (init source_config 3 3) = Ok (tt, g') /\
    count_population source_config g' = Ok (1%Z, g').
Proof.
  apply (population_after_randomize source_config (fun i => Z.of_nat i * 4000)%Z
           (1 / 32767)%float 1%Z (init source_config 3 3)).
  - solve_valid_config.
  - reflexivity.
  - solve_grid_ok.
Defined.

(** X13. The population count is never negative and never exceeds the
    number of cells. *)
Theorem count_population_bounds cfg g :
  grid_ok g ->
  exists n,
    count_population cfg g = Ok (n, g) /\
    (0 <= n <= Z.of_nat (width g * height g))%Z.
Proof.
  intros Hgrid. eexists. split; [now apply count_population_eq|].
  unfold alive_cells.
  pose proof (length_filter (fun v => v = (FADE_LEVELS cfg - 1)%Z)
                (deref (current_bitmap g) g)) as Hle.
  destruct Hgrid as (H1 & H2 & _).
  assert (length (deref (current_bitmap g) g) = width g * height g)
    by now destruct (current_bitmap g).
  lia.
Qed.

Lemma count_population_bounds_witness :
  exists n,
    count_population source_config lonely_grid = Ok (n, lonely_grid) /\
    (0 <= n <= Z.of_nat (3 * 3))%Z.
Proof.
  apply (count_population_bounds source_config lonely_grid). solve_grid_ok.
Defined.

(** ** The history window and the checks *)

(** X14. check_stability pushes the count at index 0 of the history,
    moves every older entry one place back and drops the oldest; the
    window keeps its length and nothing else of the object changes. *)
Theorem check_stability_pushes cfg current_pop g :
  length (population_history g) = HISTORY_SIZE cfg -> 2 <= HISTORY_SIZE cfg ->
  exists stable g',
    check_stability cfg current_pop g = Ok (stable, g') /\
    population_history g'
    = current_pop :: take (HISTORY_SIZE cfg - 1) (population_history g) /\
    length (population_history g') = HISTORY_SIZE cfg /\
    g' = set_population_history (population_history g') g.
Proof.
  intros Hlen Hn.
  destruct (check_stability_total cfg current_pop g Hlen Hn) as [stable E].
  exists stable, (pushed cfg current_pop g). split; [done|].
  split; [reflexivity|]. split; [|reflexivity].
  apply length_pushed; [done | lia].
Qed.

Lemma check_stability_pushes_witness :
  exists stable g',
    check_stability source_config 6 lonely_grid_other = Ok (stable, g') /\
    population_history g' = [6; 4; 2]%Z /\
    length (population_history g') = 3 /\
    g' = set_population_history (population_history g') lonely_grid_other.
Proof.
  apply (check_stability_pushes source_config 6 lonely_grid_other).
  - reflexivity.
  - simpl; lia.
Defined.

Lemma size_list_to_set_le (l : list Z) :
  size (list_to_set l : gset Z) <= length l.
Proof.
  induction l as [|x l IH]; [done|].
  cbn [list_to_set length]. rewrite size_union_alt, size_singleton.
  assert (Hsub : (list_to_set l : gset Z) ∖ {[x]} ⊆ list_to_set l)
    by apply subseteq_difference_l, reflexivity.
  apply subseteq_size in Hsub. lia.
Qed.

Lemma check_stability_three_eq cfg current_pop a b c g :
  HISTORY_SIZE cfg = 3 -> population_history g = [a; b; c] ->
  check_stability cfg current_pop g
  = Ok ((current_pop =? a)%Z || (current_pop =? b)%Z
        || (Z.max (Z.max current_pop a) b - Z.min (Z.min current_pop a) b <=? 2)%Z,
        set_population_history [current_pop; a; b] g).
Proof.
  intros H3 Hh.
  rewrite check_stability_eq by (rewrite ?Hh, ?H3; simpl; lia).
  rewrite H3, Hh. cbn [Nat.sub take].
  unfold stability_checks. rewrite H3.
  pose proof (size_list_to_set_le [current_pop; a; b]) as Hsz.
  set (g1 := set_population_history [current_pop; a; b] g).
  rewrite !(decide_True (P := 3 <= 3)) by lia.
  erewrite bind_ok; [|reflexivity].
  erewrite bind_ok; [|reflexivity].
  destruct (current_pop =? a)%Z eqn:Ea; [reflexivity|].
  match goal with
  | |- bind ?m _ _ = _ =>
      assert (Hblk : m g1 = Ok ((current_pop =? b)%Z, g1))
  end.
  { erewrite bind_ok; [|reflexivity].
    erewrite bind_ok; [|reflexivity].
    destruct (current_pop =? b)%Z; [|reflexivity].
    erewrite bind_ok; [|reflexivity].
    erewrite bind_ok; [|reflexivity].
    unfold ret. now rewrite Ea. }
  rewrite (bind_ok _ _ _ _ _ Hblk).
  destruct (current_pop =? b)%Z; [reflexivity|].
  erewrite bind_ok; [|reflexivity].
  cbn [population_history g1 set_population_history].
  rewrite (decide_True (P := size _ <= 3)) by exact Hsz.
  erewrite bind_ok; [|reflexivity].
  erewrite bind_ok; [|reflexivity].
  cbn [foldl orb].
  destruct (_ <=? 2)%Z; reflexivity.
Qed.

(** X15. With HISTORY_SIZE = 3 the answer of check_stability on
    (count, history [a, b, _]) is: count = a (static), or count = b
    (period 2), or max - min of {count, a, b} at most 2; the test on the
    number of distinct values never fails, a window of three having at most
    three. *)
Theorem check_stability_window_of_three cfg current_pop a b c g :
  HISTORY_SIZE cfg = 3 -> population_history g = [a; b; c] ->
  check_stability cfg current_pop g
  = Ok ((current_pop =? a)%Z || (current_pop =? b)%Z
        || (Z.max (Z.max current_pop a) b - Z.min (Z.min current_pop a) b <=? 2)%Z,
        set_population_history [current_pop; a; b] g).
Proof. apply check_stability_three_eq. Qed.

Lemma check_stability_window_of_three_witness :
  check_stability source_config 6 lonely_grid_other
  = Ok ((6 =? 4)%Z || (6 =? 2)%Z
        || (Z.max (Z.max 6 4) 2 - Z.min (Z.min 6 4) 2 <=? 2)%Z,
        set_population_history [6; 4; 2]%Z lonely_grid_other).
Proof.
  apply (check_stability_window_of_three source_config 6 4 2 9 lonely_grid_other);
    reflexivity.
Defined.

(** X16. With HISTORY_SIZE = 2 only the static check applies:
    check_stability answers true exactly when the count equals the previous
    one. *)
Theorem check_stability_window_of_two cfg current_pop a b g :
  HISTORY_SIZE cfg = 2 -> population_history g = [a; b] ->
  check_stability cfg current_pop g
  = Ok ((current_pop =? a)%Z, set_population_history [current_pop; a] g).
Proof.
  intros H2 Hh.
  rewrite check_stability_eq by (rewrite ?Hh, ?H2; simpl; lia).
  rewrite H2, Hh. cbn [Nat.sub take].
  unfold stability_checks. rewrite H2.
  unfold bind, history_get, gets, ret.
  cbn [population_history set_population_history lookup list_lookup].
  rewrite (decide_False (P := 3 <= 2)) by lia.
  destruct (current_pop =? a)%Z; done.
Qed.

(** The source configuration with a history window of two entries. *)
Lemma check_stability_window_of_two_witness :
  check_stability
    {| FADE_LEVELS := 8; FADE_DECAY_RATE := 1; AUTO_RESET_ON_STABLE := true;
       STABLE_GENERATIONS := 10; HISTORY_SIZE := 2 |}
    5 (set_population_history [5; 9]%Z (init source_config 2 2))
  = Ok ((5 =? 5)%Z, set_population_history [5; 5]%Z
                      (set_population_history [5; 9]%Z (init source_config 2 2))).
Proof.
  apply (check_stability_window_of_two
           {| FADE_LEVELS := 8; FADE_DECAY_RATE := 1; AUTO_RESET_ON_STABLE := true;
              STABLE_GENERATIONS := 10; HISTORY_SIZE := 2 |}
           5 5 9 (set_population_history [5; 9]%Z (init source_config 2 2)));
    reflexivity.
Defined.

(** ** Calls of [handle_stable_state] *)

(** X17. A call of handle_stable_state that does not reseed - the check
    answers false, or it answers true and the incremented stable_count is
    still below STABLE_GENERATIONS - leaves both bitmaps, the fade buffer,
    the references and the console untouched, pushes the population on the
    history, adds 1 to generation, and sets stable_count to 0 (not stable)
    or adds 1 to it (stable). *)
Theorem handle_stable_state_without_reseed cfg rand g stable :
  AUTO_RESET_ON_STABLE cfg = true ->
  grid_ok g ->
  length (population_history g) = HISTORY_SIZE cfg ->
  2 <= HISTORY_SIZE cfg ->
  reports_stable cfg g stable ->
  (stable = true -> (stable_count g + 1 < STABLE_GENERATIONS cfg)%Z) ->
  exists g',
    handle_stable_state cfg rand g = Ok (tt, g') /\
    b1 g' = b1 g /\ b2 g' = b2 g /\ fade_buffer g' = fade_buffer g /\
    current_bitmap g' = current_bitmap g /\ next_bitmap g' = next_bitmap g /\
    console g' = console g /\
    population_history g'
    = alive_cells cfg (deref (current_bitmap g) g)
      :: take (HISTORY_SIZE cfg - 1) (population_history g) /\
    generation g' = (generation g + 1)%Z /\
    stable_count g' = (if stable then stable_count g + 1 else 0)%Z.
Proof.
  intros Hauto Hgrid Hlen Hn Hst Hbelow.
  destruct (handle_stable_state_eq cfg rand g Hauto Hgrid Hlen Hn) as (b & Hb & E).
  rewrite <- (reports_stable_functional _ _ _ _ Hst Hb) in E.
  eexists. split; [exact E|]. unfold after_check.
  destruct stable; [|repeat split].
  cbn [stable_count set_stable_count pushed set_population_history].
  destruct (Z.leb_spec (STABLE_GENERATIONS cfg) (stable_count g + 1));
    [specialize (Hbelow eq_refl); lia|].
  repeat split.
Qed.

Lemma handle_stable_state_without_reseed_witness :
  exists g',
    handle_stable_state source_config (fun _ => 0%Z) lonely_grid_other = Ok (tt, g') /\
    b1 g' = b1 lonely_grid_other /\ b2 g' = b2 lonely_grid_other /\
    fade_buffer g' = fade_buffer lonely_grid_other /\
    current_bitmap g' = B2 /\ next_bitmap g' = B1 /\
    console g' = console lonely_grid_other /\
    population_history g' = [1; 4; 2]%Z /\
    generation g' = 42%Z /\
    stable_count g' = 0%Z.
Proof.
  apply (handle_stable_state_without_reseed source_config (fun _ => 0%Z)
           lonely_grid_other false).
  - reflexivity.
  - solve_grid_ok.
  - reflexivity.
  - simpl; lia.
  - exists 1%Z, (set_population_history [1; 4; 2]%Z lonely_grid_other).
    split; reflexivity.
  - discriminate.
Defined.

(** X18. When the call reseeds, the current bitmap and the fade buffer are
    rewritten by randomize(0.33): cell i is alive exactly when the i-th
    draw is below int(0.33 * 32767) = 10813; the next bitmap keeps its
    levels. *)
Theorem reseed_randomizes_grid cfg rand g :
  AUTO_RESET_ON_STABLE cfg = true ->
  grid_ok g ->
  length (population_history g) = HISTORY_SIZE cfg ->
  2 <= HISTORY_SIZE cfg ->
  reports_stable cfg g true ->
  (STABLE_GENERATIONS cfg <= stable_count g + 1)%Z ->
  exists g',
    handle_stable_state cfg rand g = Ok (tt, g') /\
    deref (current_bitmap g) g'
    = (fun i => if (rand i <? 10813)%Z then (FADE_LEVELS cfg - 1)%Z else 0%Z)
      <$> seq 0 (width g * height g) /\
    fade_buffer g' = deref (current_bitmap g) g' /\
    deref (next_bitmap g) g' = deref (next_bitmap g) g /\
    current_bitmap g' = current_bitmap g /\ next_bitmap g' = next_bitmap g.
Proof.
  intros Hauto Hgrid Hlen Hn Hst Hsc.
  eexists. split; [now apply handle_stable_state_stable|].
  unfold after_check.
  cbn [stable_count set_stable_count pushed set_population_history].
  destruct (Z.leb_spec (STABLE_GENERATIONS cfg) (stable_count g + 1)); [|lia].
  destruct Hgrid as (_ & _ & _ & Hne).
  unfold reseeded, randomized. cbv zeta.
  destruct (current_bitmap g) eqn:Ec, (next_bitmap g) eqn:En; try done;
    cbn; rewrite ?Ec; cbn; repeat split; assumption.
Qed.

Lemma reseed_randomizes_grid_witness :
  exists g',
    handle_stable_state source_config (fun i => Z.of_nat i * 4000)%Z ninth_stable
    = Ok (tt, g') /\
    deref B1 g' = [7; 7; 7; 0]%Z /\
    fade_buffer g' = deref B1 g' /\
    deref B2 g' = deref B2 ninth_stable /\
    current_bitmap g' = B1 /\ next_bitmap g' = B2.
Proof.
  apply (reseed_randomizes_grid source_config (fun i => Z.of_nat i * 4000)%Z ninth_stable).
  - reflexivity.
  - solve_grid_ok.
  - reflexivity.
  - simpl; lia.
  - exists 0%Z. eexists. split; reflexivity.
  - simpl; lia.
Defined.

(** ** Streaks of stable generations *)

Ltac dead_streak_step n :=
  eapply (streak_step source_config _ _ (dead_after n) (dead_after n)
            (fun _ => 32767%Z));
  [ | repeat split | solve_grid_ok
    | exists 0%Z, (dead_after n); split; reflexivity
    | reflexivity ].

Lemma dead_streak_nine :
  stable_streak source_config 9 (init source_config 2 2) (dead_after 9).
Proof.
  dead_streak_step 8%Z. dead_streak_step 7%Z. dead_streak_step 6%Z.
  dead_streak_step 5%Z. dead_streak_step 4%Z. dead_streak_step 3%Z.
  dead_streak_step 2%Z. dead_streak_step 1%Z. dead_streak_step 0%Z.
  apply streak_nil.
Qed.

Lemma dead_streak_ten :
  stable_streak source_config 10 (init source_config 2 2) dead_reseeded.
Proof.
  eapply (streak_step source_config _ _ (dead_after 9) (dead_after 9)
            (fun _ => 32767%Z)).
  - apply dead_streak_nine.
  - repeat split.
  - solve_grid_ok.
  - exists 0%Z, (dead_after 9). split; reflexivity.
  - reflexivity.
Qed.

(** X19. Counted from a reset (stable_count = 0), n consecutive calls of
    handle_stable_state that find the population stable, with n below
    STABLE_GENERATIONS, never reseed: the console is unchanged,
    stable_count is n and generation has grown by n, however the grid
    changed between the calls. *)
Theorem stable_generations_only_count cfg n g0 g :
  AUTO_RESET_ON_STABLE cfg = true ->
  2 <= HISTORY_SIZE cfg ->
  length (population_history g0) = HISTORY_SIZE cfg ->
  stable_count g0 = 0%Z ->
  stable_streak cfg n g0 g ->
  (Z.of_nat n < STABLE_GENERATIONS cfg)%Z ->
  stable_count g = Z.of_nat n /\
  generation g = (generation g0 + Z.of_nat n)%Z /\
  console g = console g0 /\
  length (population_history g) = HISTORY_SIZE cfg.
Proof. apply stable_streak_below. Qed.

Lemma stable_generations_only_count_witness :
  stable_count (dead_after 9) = 9%Z /\
  generation (dead_after 9) = (0 + 9)%Z /\
  console (dead_after 9) = [] /\
  length (population_history (dead_after 9)) = 3.
Proof.
  apply (stable_generations_only_count source_config 9 (init source_config 2 2)
           (dead_after 9)).
  - reflexivity.
  - simpl; lia.
  - reflexivity.
  - reflexivity.
  - apply dead_streak_nine.
  - simpl; lia.
Defined.

(** X20. Counted from a reset, the STABLE_GENERATIONS-th consecutive
    stable call is the first and only one that reseeds: the console gains
    exactly one reset message, carrying the generation number before the
    call, followed by the pause; afterwards the history is all-zero,
    stable_count is 0 and generation is 1. *)
Theorem threshold_generation_reseeds_once cfg n g0 g :
  AUTO_RESET_ON_STABLE cfg = true ->
  2 <= HISTORY_SIZE cfg ->
  length (population_history g0) = HISTORY_SIZE cfg ->
  stable_count g0 = 0%Z ->
  (1 <= STABLE_GENERATIONS cfg)%Z ->
  stable_streak cfg n g0 g ->
  Z.of_nat n = STABLE_GENERATIONS cfg ->
  generation g = 1%Z /\
  stable_count g = 0%Z /\
  population_history g = replicate (HISTORY_SIZE cfg) 0%Z /\
  console g = console g0
              ++ [PrintReset (generation g0 + STABLE_GENERATIONS cfg - 1); Sleep].
Proof. apply stable_streak_reseeds_at_threshold. Qed.

Lemma threshold_generation_reseeds_once_witness :
  generation dead_reseeded = 1%Z /\
  stable_count dead_reseeded = 0%Z /\
  population_history dead_reseeded = [0; 0; 0]%Z /\
  console dead_reseeded = [PrintReset 9; Sleep].
Proof.
  apply (threshold_generation_reseeds_once source_config 10 (init source_config 2 2)
           dead_reseeded).
  - reflexivity.
  - simpl; lia.
  - reflexivity.
  - reflexivity.
  - simpl; lia.
  - apply dead_streak_ten.
  - reflexivity.
Defined.

(** ** The palette *)

Lemma palette_loop_app xs ys palette :
  palette_loop (xs ++ ys) palette
  = match palette_loop xs palette with
    | Ok palette' => palette_loop ys palette'
    | Raise e => Raise e
    end.
Proof.
  revert palette. induction xs as [|x xs IH]; intros palette; [done|].
  simpl. destruct (palette_step x palette); [apply IH | done].
Qed.

Lemma palette_loop_ok (p0 : list Z) :
  forall m k, k + m <= length FADE_COLORS -> k + m <= length p0 ->
  palette_loop (seq k m) (mix (cell_at FADE_COLORS) k p0)
  = Ok (mix (cell_at FADE_COLORS) (k + m) p0).
Proof.
  induction m as [|m IH]; intros k Hc Hp.
  - now rewrite Nat.add_0_r.
  - simpl. unfold palette_step.
    rewrite (cell_at_lookup FADE_COLORS k) by lia.
    rewrite decide_True by (rewrite mix_length; lia).
    rewrite mix_S by lia. rewrite (IH (S k)) by lia.
    do 2 f_equal. lia.
Qed.

Lemma fade_colors_prefix n :
  n <= length FADE_COLORS -> cell_at FADE_COLORS <$> seq 0 n = take n FADE_COLORS.
Proof.
  intros Hn. apply list_eq. intros i.
  destruct (decide (i < n)) as [Hi|Hi].
  - rewrite lookup_fmap_seq, lookup_take_lt by done.
    symmetry. apply cell_at_lookup. lia.
  - rewrite !lookup_ge_None_2; [done|..];
      rewrite ?length_take, ?length_fmap_seq; lia.
Qed.

(** X21. Building the palette in __init__ reads FADE_COLORS[i] for every
    level i: with at most 8 levels the palette is the first FADE_LEVELS
    entries of FADE_COLORS; with more than 8 the read of FADE_COLORS[8]
    raises IndexError, so the object cannot be constructed. *)
Theorem make_palette_bounds cfg :
  ((0 <= FADE_LEVELS cfg <= 8)%Z ->
   make_palette cfg = Ok (take (Z.to_nat (FADE_LEVELS cfg)) FADE_COLORS)) /\
  ((8 < FADE_LEVELS cfg)%Z -> make_palette cfg = Raise IndexError).
Proof.
  unfold make_palette. cbv zeta.
  set (n := Z.to_nat (FADE_LEVELS cfg)). split; intros H.
  - assert (Hn : n <= 8) by lia.
    pose proof (palette_loop_ok (replicate n 0%Z) n 0) as E.
    rewrite mix_0, length_replicate in E. simpl length in E.
    rewrite E by lia. simpl Nat.add.
    rewrite mix_all by apply length_replicate.
    now rewrite fade_colors_prefix.
  - assert (Hn : n = 8 + S (n - 9)) by lia.
    rewrite Hn at 1. rewrite seq_app, palette_loop_app.
    pose proof (palette_loop_ok (replicate n 0%Z) 8 0) as E.
    rewrite mix_0, length_replicate in E. simpl length in E.
    rewrite E by lia. reflexivity.
Qed.

Lemma make_palette_bounds_witness :
  make_palette source_config = Ok FADE_COLORS /\
  make_palette {| FADE_LEVELS := 9; FADE_DECAY_RATE := 1;
                  AUTO_RESET_ON_STABLE := true; STABLE_GENERATIONS := 10;
                  HISTORY_SIZE := 3 |}
  = Raise IndexError.
Proof.
  split.
  - apply (proj1 (make_palette_bounds source_config)). simpl; lia.
  - apply (proj2 (make_palette_bounds
             {| FADE_LEVELS := 9; FADE_DECAY_RATE := 1;
                AUTO_RESET_ON_STABLE := true; STABLE_GENERATIONS := 10;
                HISTORY_SIZE := 3 |})).
    simpl; lia.
Defined.

(** X22. On a history that still holds its zero placeholders (after
    construction or after a reseed) and with HISTORY_SIZE = 3, the first
    check answers true exactly when the population is at most 2: the
    placeholders count as real generations. *)
Theorem zero_history_reports_small_population_stable cfg current_pop g :
  HISTORY_SIZE cfg = 3 -> population_history g = [0; 0; 0]%Z ->
  (0 <= current_pop)%Z ->
  check_stability cfg current_pop g
  = Ok ((current_pop <=? 2)%Z, set_population_history [current_pop; 0; 0]%Z g).
Proof.
  intros H3 Hh Hpop.
  rewrite (check_stability_three_eq cfg current_pop 0 0 0 g H3 Hh). do 2 f_equal.
  destruct (Z.eqb_spec current_pop 0), (Z.leb_spec current_pop 2); cbn [orb];
    (reflexivity || lia).
Qed.

Lemma zero_history_reports_small_population_stable_witness :
  check_stability source_config 2 (init source_config 4 4)
  = Ok ((2 <=? 2)%Z, set_population_history [2; 0; 0]%Z (init source_config 4 4)).
Proof.
  apply (zero_history_reports_small_population_stable source_config 2
           (init source_config 4 4)).
  - reflexivity.
  - reflexivity.
  - lia.
Defined.
